(** * HubSpot synchronisation pipeline: retry executor and directory client

    A shallow embedding of [lib/hubspot-retry.ts], [lib/hubspot.ts] and the
    GET and POST handlers of the integration test route that calls them.

    - JavaScript values that cross the wire (JSON documents, plus
      [undefined]) are the inductive [value]; numbers are modelled as
      integers ([Z]), which is what identifiers, attempt counters and
      millisecond delays are.
    - JavaScript strings are [string] (byte strings, UTF-8).
    - An [async] function is a state transformer over a [State]: the remote
      world it talks to and the trace of observable effects it has produced
      (invocations of a retried operation, network calls, timer waits,
      console lines).  Its promise either fulfils ([Returned]) or rejects
      ([Threw]).
    - The remote is any function [fetch] from a request and a world to the
      way the call settles and the next world; what happens when an attempt
      has not settled as its timer fires is part of that behaviour
      ([Unsettled]).  Reading the body of a response that has arrived
      settles: it fulfils with a document or rejects.
    - The loop of [retryWithBackoff] is given twice: as the source writes
      it, with fuel ([Retry.for_loop]), and by recursion on the number of
      iterations that remain ([Retry.loop]), which is total and which the
      theorems use; the two agree. *)

From Stdlib Require Import ZArith List String Ascii Bool Lia DecimalString.
Import ListNotations.
Open Scope string_scope.
Open Scope Z_scope.

Set Implicit Arguments.
Set Warnings "-register-all".

(* ================================================================= *)
(** ** JavaScript strings *)

Module JsString.

(** [String.prototype.toLowerCase], on the ASCII letters.  The patterns
    searched for below are made of ASCII letters, digits and a space, and
    no character outside ASCII lowers to a run of their letters (U+0130
    lowers to [i] followed by a combining dot, U+212A to [k]), so for these
    searches nothing is lost. *)
Definition lower_ascii (c : ascii) : ascii :=
  let n := nat_of_ascii c in
  if (andb (Nat.leb 65 n) (Nat.leb n 90)) then ascii_of_nat (n + 32) else c.

Fixpoint toLowerCase (s : string) : string :=
  match s with
  | EmptyString => EmptyString
  | String c s' => String (lower_ascii c) (toLowerCase s')
  end.

(** [s.includes(pat)] *)
Fixpoint includes (pat s : string) : bool :=
  if String.prefix pat s then true
  else match s with
       | EmptyString => false
       | String _ s' => includes pat s'
       end.

(** [String(n)] / template interpolation of an integer.  This is the text
    JavaScript gives for the integers it represents exactly and writes in
    full, those up to [Number.MAX_SAFE_INTEGER] in size ([safe_integer]
    below); attempt counters, delays, timeouts, identifiers and clock
    readings are such numbers. *)
Definition of_Z (n : Z) : string := NilZero.string_of_int (Z.to_int n).

(** [Number.isSafeInteger(n)] *)
Definition safe_integer (n : Z) : Prop := Z.abs n <= 9007199254740991.

(** The UTF-16 view of a string kept as UTF-8 bytes: a lead byte opens a
    sequence of 1 to 4 bytes (0 to 3 continuation bytes, [10xxxxxx]); a
    sequence of 4 bytes is a pair of UTF-16 units, any other is one unit.
    A byte that is no lead where one is due counts as a unit of its own. *)
Definition is_continuation (c : ascii) : bool :=
  let n := N_of_ascii c in (128 <=? n)%N && (n <? 192)%N.

(** Continuation bytes that follow the lead byte [c]. *)
Definition continuations (c : ascii) : nat :=
  let n := N_of_ascii c in
  if (n <? 192)%N then 0%nat
  else if (n <? 224)%N then 1%nat
  else if (n <? 240)%N then 2%nat
  else if (n <? 248)%N then 3%nat
  else 0%nat.

Fixpoint units (pending : nat) (s : string) : Z :=
  match s with
  | EmptyString => 0
  | String c s' =>
      match pending with
      | S pending' =>
          if is_continuation c then units pending' s'
          else (if Nat.eqb (continuations c) 3 then 2 else 1) + units (continuations c) s'
      | O => (if Nat.eqb (continuations c) 3 then 2 else 1) + units (continuations c) s'
      end
  end.

(** [s.length] *)
Definition length (s : string) : Z := units 0 s.

(** The leading continuation bytes of [s], at most [count]. *)
Fixpoint take_continuations (count : nat) (s : string) : string :=
  match count, s with
  | S count', String c s' =>
      if is_continuation c then String c (take_continuations count' s') else EmptyString
  | _, _ => EmptyString
  end.

(** The payload bits of the [i]-th byte of [s]. *)
Definition payload (i : nat) (s : string) : N :=
  match String.get i s with
  | Some c => (N_of_ascii c mod 64)%N
  | None => 0%N
  end.

(** [s[0]], the first UTF-16 unit of a string that is not empty, as a
    string.  For a sequence of 4 bytes it is the high surrogate of the
    pair, written as the three bytes its code has in UTF-8. *)
Definition first_unit (s : string) : string :=
  match s with
  | EmptyString => EmptyString
  | String c rest =>
      match continuations c with
      | 3%nat =>
          let tail := take_continuations 3 rest in
          let code := ((N_of_ascii c mod 8) * 262144 + payload 0 tail * 4096
                       + payload 1 tail * 64 + payload 2 tail)%N in
          let high := (55296 + (code - 65536) / 1024)%N in
          String (ascii_of_N (224 + high / 4096))
                 (String (ascii_of_N (128 + (high / 64) mod 64))
                         (String (ascii_of_N (128 + high mod 64)) EmptyString))
      | count => String c (take_continuations count rest)
      end
  end.

Definition of_bool (b : bool) : string := if b then "true" else "false".

Definition is_empty (s : string) : bool :=
  match s with EmptyString => true | _ => false end.

End JsString.

(* ================================================================= *)
(** ** JavaScript values, errors and promises *)

(** A JSON document, or [undefined]. Objects are association lists; property
    lookup takes the first binding of a key. *)
Inductive value : Type :=
| VUndefined
| VNull
| VBool (b : bool)
| VNum (n : Z)
| VStr (s : string)
| VArr (items : list value)
| VObj (fields : list (string * value)).

(** What a [catch] clause receives: an [Error] instance with its message, or
    any other thrown value, kept as the text [String(v)] gives for it. *)
Inductive thrown : Type :=
| ThrownError (message : string)
| ThrownOther (rendering : string).

(** How the promise of an [async] function settles. *)
Inductive Completion (A : Type) : Type :=
| Returned (a : A)
| Threw (e : thrown).
Arguments Returned {A} a.
Arguments Threw {A} e.

(** How one attempt fares in [Promise.race([fn(), timer])]: the operation
    fulfils first, rejects first, or has not settled when the timer fires. *)
Inductive Settle (A : Type) : Type :=
| Resolved (a : A)
| Rejected (e : thrown)
| Unsettled.
Arguments Resolved {A} a.
Arguments Rejected {A} e.
Arguments Unsettled {A}.

Module Js.

(** ToBoolean *)
Definition truthy (v : value) : bool :=
  match v with
  | VUndefined | VNull => false
  | VBool b => b
  | VNum n => negb (n =? 0)
  | VStr s => negb (JsString.is_empty s)
  | VArr _ | VObj _ => true
  end.

(** [a || b] *)
Definition or_else (a b : value) : value := if truthy a then a else b.

Fixpoint lookup (k : string) (fields : list (string * value)) : value :=
  match fields with
  | [] => VUndefined
  | (k', v) :: rest => if String.eqb k k' then v else lookup k rest
  end.

(** [s[0]] of a string: its first UTF-16 unit, [undefined] when it is
    empty. *)
Definition first_char (s : string) : value :=
  match s with
  | EmptyString => VUndefined
  | String _ _ => VStr (JsString.first_unit s)
  end.

(** [v.k] and [v[0]] ([k = "0"]).  Reading a property of [null] or
    [undefined] throws a [TypeError] (message as V8 words it). *)
Definition get (v : value) (k : string) : Completion value :=
  match v with
  | VUndefined =>
      Threw (ThrownError ("Cannot read properties of undefined (reading '" ++ k ++ "')"))
  | VNull =>
      Threw (ThrownError ("Cannot read properties of null (reading '" ++ k ++ "')"))
  | VBool _ | VNum _ => Returned VUndefined
  | VStr s =>
      if String.eqb k "length" then Returned (VNum (JsString.length s))
      else if String.eqb k "0" then Returned (first_char s)
      else Returned VUndefined
  | VArr items =>
      if String.eqb k "length" then Returned (VNum (Z.of_nat (List.length items)))
      else if String.eqb k "0" then Returned (hd VUndefined items)
      else Returned VUndefined
  | VObj fields => Returned (lookup k fields)
  end.

(** [v?.k] *)
Definition get_opt (v : value) (k : string) : value :=
  match get v k with
  | Returned x => x
  | Threw _ => VUndefined
  end.

Definition is_defined (v : value) : bool :=
  match v with VUndefined => false | _ => true end.

End Js.

(* ================================================================= *)
(** ** Values written into text *)

Module JsText.

Definition has_own (k : string) (fields : list (string * value)) : bool :=
  existsb (fun field => String.eqb k (fst field)) fields.

(** [String(v)] / [`${v}`].  An array joins the texts of its elements
    with commas, [null] and [undefined] giving the empty text.  A plain
    object gives ["[object Object]"], unless it has a [toString] of its
    own: in a JSON document that is no function, and the conversion throws
    a [TypeError] (message as V8 words it). *)
Fixpoint to_string (v : value) : Completion string :=
  match v with
  | VUndefined => Returned "undefined"
  | VNull => Returned "null"
  | VBool b => Returned (JsString.of_bool b)
  | VNum n => Returned (JsString.of_Z n)
  | VStr s => Returned s
  | VArr items =>
      (fix join (l : list value) : Completion string :=
         match l with
         | [] => Returned EmptyString
         | x :: rest =>
             match match x with
                   | VUndefined | VNull => Returned EmptyString
                   | _ => to_string x
                   end with
             | Threw e => Threw e
             | Returned text =>
                 match rest with
                 | [] => Returned text
                 | _ => match join rest with
                        | Threw e => Threw e
                        | Returned more => Returned (text ++ "," ++ more)
                        end
                 end
             end
         end) items
  | VObj fields =>
      if has_own "toString" fields
      then Threw (ThrownError "Cannot convert object to primitive value")
      else Returned "[object Object]"
  end.

End JsText.

(* ================================================================= *)
(** ** Requests, responses and observable effects *)

(** The six HTTPS calls the client issues, each with the bearer credential
    and the content of its JSON body. *)
Inductive Request : Type :=
| SearchContacts (apiKey email : string)
    (* POST /crm/v3/objects/contacts/search, filter email EQ, limit 1,
       sorted by hs_object_id descending *)
| PostContact (apiKey : string) (properties : list (string * string))
    (* POST /crm/v3/objects/contacts *)
| PatchContact (apiKey : string) (vid : value) (properties : list (string * string))
    (* PATCH /crm/v3/objects/contacts/${vid} *)
| PostListMember (apiKey listId email : string)
    (* POST /crm/v3/lists/${listId}/members *)
| PostDeal (apiKey : string) (properties : list (string * string))
    (* POST /crm/v3/objects/deals *)
| PostNote (apiKey : string) (properties : list (string * string)) (contactId : value).
    (* POST /crm/v3/objects/notes *)

(** A [Response]: the status, and what [response.json()] settles to. *)
Record Response : Type := mkResponse {
  status : Z;
  json : Completion value
}.

(** [response.ok] *)
Definition ok (r : Response) : bool := (200 <=? status r) && (status r <=? 299).

Inductive Event : Type :=
| Invoke (attempt : Z)                (* [fn()] evaluated in [retryWithBackoff] *)
| Fetch (req : Request)               (* the global [fetch] called *)
| Wait (delayMs : Z)                  (* the backoff timer awaited *)
| ConsoleLog (line : string)
| ConsoleWarn (line : string)
| ConsoleError (label : string) (e : thrown).

Record State (W : Type) : Type := mkState {
  world : W;
  trace : list Event
}.
Arguments mkState {W} world trace.

Definition emit {W} (e : Event) (st : State W) : State W :=
  mkState (world st) (trace st ++ [e]).

(** Number of times the retried operation was invoked. *)
Fixpoint invocations (tr : list Event) : nat :=
  match tr with
  | [] => 0
  | Invoke _ :: tr' => S (invocations tr')
  | _ :: tr' => invocations tr'
  end.

(** The network calls, in order. *)
Fixpoint network_calls (tr : list Event) : list Request :=
  match tr with
  | [] => []
  | Fetch r :: tr' => r :: network_calls tr'
  | _ :: tr' => network_calls tr'
  end.

(** The backoff delays waited, in order. *)
Fixpoint waits (tr : list Event) : list Z :=
  match tr with
  | [] => []
  | Wait d :: tr' => d :: waits tr'
  | _ :: tr' => waits tr'
  end.

(* ================================================================= *)
(** ** lib/hubspot-retry.ts *)

Module Retry.

Record RetryOptions : Type := mkOptions {
  maxAttempts : option Z;
  timeoutMs : option Z;
  initialDelayMs : option Z
}.

Definition DEFAULT_OPTIONS : RetryOptions :=
  mkOptions (Some 3) (Some 10000) (Some 2000).

Definition no_options : RetryOptions := mkOptions None None None.

(** [{ ...DEFAULT_OPTIONS, ...options }] followed by the destructuring
    defaults: a field the caller leaves out (or sets to [undefined]) takes
    its default. *)
Definition pick (field deflt : option Z) (fallback : Z) : Z :=
  match field with
  | Some v => v
  | None => match deflt with Some d => d | None => fallback end
  end.

Definition config_maxAttempts (o : RetryOptions) : Z :=
  pick (maxAttempts o) (maxAttempts DEFAULT_OPTIONS) 3.
Definition config_timeoutMs (o : RetryOptions) : Z :=
  pick (timeoutMs o) (timeoutMs DEFAULT_OPTIONS) 10000.
Definition config_initialDelayMs (o : RetryOptions) : Z :=
  pick (initialDelayMs o) (initialDelayMs DEFAULT_OPTIONS) 2000.

Definition retryablePatterns : list string :=
  [ "econnrefused"; "enotfound"; "etimedout"; "timeout after";
    "429"; "500"; "502"; "503"; "504" ].

(** [isRetryableError(error)], on the error's message. *)
Definition isRetryableError (message : string) : bool :=
  let message := JsString.toLowerCase message in
  existsb (fun pattern => JsString.includes pattern message) retryablePatterns.

(** [error instanceof Error ? error : new Error(String(error))] *)
Definition as_error (e : thrown) : string :=
  match e with
  | ThrownError m => m
  | ThrownOther s => s
  end.

Definition timeout_message (timeoutMs : Z) : string :=
  "Request timeout after " ++ JsString.of_Z timeoutMs ++ "ms".

(** The outcome of the race of one attempt against its timer. *)
Definition race {T} (timeoutMs : Z) (o : Settle T) : T + thrown :=
  match o with
  | Resolved r => inl r
  | Rejected e => inr e
  | Unsettled => inr (ThrownError (timeout_message timeoutMs))
  end.

Section Loop.
Context {W T : Type}.
Variable fn : State W -> Settle T * State W.
Variables maxAttempts timeoutMs initialDelayMs : Z.

(** The text of [throw lastError || new Error('Unknown error in
    retryWithBackoff')] after the loop. *)
Definition fallthrough (lastError : option string) : thrown :=
  ThrownError (match lastError with
               | Some m => m
               | None => "Unknown error in retryWithBackoff"
               end).

(** One run of the loop body.  It leaves the function ([inl]: the result
    returned, or the error thrown) or goes on to the next iteration
    ([inr]: with [lastError] set, after the backoff wait). *)
Definition iteration (attempt : Z) (st : State W)
  : (Completion T * State W) + (string * State W) :=
  let (o, st) := fn (emit (Invoke attempt) st) in
  match race timeoutMs o with
  | inl result =>
      let st := if 1 <? attempt
                then emit (ConsoleLog ("HubSpot API call succeeded on attempt "
                                       ++ JsString.of_Z attempt)) st
                else st in
      inl (Returned result, st)
  | inr error =>
      let lastError := as_error error in
      let isRetryable := isRetryableError lastError in
      let isLastAttempt := attempt =? maxAttempts in
      let st := emit (ConsoleWarn
                        ("HubSpot API error on attempt " ++ JsString.of_Z attempt
                         ++ "/" ++ JsString.of_Z maxAttempts ++ ": " ++ lastError
                         ++ " (retryable: " ++ JsString.of_bool isRetryable ++ ")")) st in
      if isLastAttempt || negb isRetryable then
        inl (Threw (ThrownError lastError), st)
      else
        let delayMs := initialDelayMs * 2 ^ (attempt - 1) in
        let st := emit (ConsoleLog ("Retrying HubSpot API call in "
                                    ++ JsString.of_Z delayMs ++ "ms...")) st in
        let st := emit (Wait delayMs) st in
        inr (lastError, st)
  end.

(** [for (let attempt = 1; attempt <= maxAttempts; attempt++) { ... }] and
    the [throw] after it, as written, with fuel for the iterations. *)
Fixpoint for_loop (fuel : nat) (attempt : Z) (lastError : option string)
         (st : State W) : option (Completion T * State W) :=
  match fuel with
  | O => None
  | S fuel' =>
      if attempt <=? maxAttempts then
        match iteration attempt st with
        | inl done => Some done
        | inr (lastError, st) => for_loop fuel' (attempt + 1) (Some lastError) st
        end
      else Some (Threw (fallthrough lastError), st)
  end.

(** The same loop by recursion on the number [remaining] of iterations left
    before [attempt <= maxAttempts] fails; [for_loop_enough_fuel] below
    relates the two. *)
Fixpoint loop (remaining : nat) (attempt : Z) (lastError : option string)
         (st : State W) : Completion T * State W :=
  match remaining with
  | O => (Threw (fallthrough lastError), st)
  | S remaining' =>
      match iteration attempt st with
      | inl done => done
      | inr (lastError, st) => loop remaining' (attempt + 1) (Some lastError) st
      end
  end.
End Loop.

Definition retryWithBackoff {W T} (fn : State W -> Settle T * State W)
           (options : RetryOptions) (st : State W) : Completion T * State W :=
  let maxAttempts := config_maxAttempts options in
  loop fn maxAttempts (config_timeoutMs options) (config_initialDelayMs options)
       (Z.to_nat maxAttempts) 1 None st.

End Retry.

(* ================================================================= *)
(** ** Asynchronous computations *)

Definition M (W A : Type) : Type := State W -> Completion A * State W.

Definition ret {W A} (a : A) : M W A := fun st => (Returned a, st).

Definition bind {W A B} (m : M W A) (k : A -> M W B) : M W B :=
  fun st =>
    match m st with
    | (Returned a, st') => k a st'
    | (Threw e, st') => (Threw e, st')
    end.

(** [try { m } catch (error) { handler error }] *)
Definition try_catch {W A} (m : M W A) (handler : thrown -> M W A) : M W A :=
  fun st =>
    match m st with
    | (Returned a, st') => (Returned a, st')
    | (Threw e, st') => handler e st'
    end.

(** A synchronous step that may throw. *)
Definition lift {W A} (c : Completion A) : M W A := fun st => (c, st).

Definition console_error {W} (label : string) (e : thrown) : M W unit :=
  fun st => (Returned tt, emit (ConsoleError label e) st).

Declare Scope js_scope.
Delimit Scope js_scope with js.
Notation "x <- m ;; k" := (bind m (fun x => k))
  (at level 61, m at next level, right associativity) : js_scope.
Notation "m ;;; k" := (bind m (fun _ => k))
  (at level 61, right associativity) : js_scope.

(* ================================================================= *)
(** ** lib/hubspot.ts *)

Module HubSpot.

Record HubSpotContact : Type := mkContact {
  email : string;
  firstName : option string;
  lastName : option string;
  company : option string;
  lifecycleStage : option string;
  source : option string;
  customFields : option (list (string * string))  (* [Object.entries] order *)
}.

(** The objects the exported functions return; a key that is left out
    reads as [undefined]. *)
Record Result : Type := mkResult {
  success : bool;
  vid : value;
  dealId : value;
  error : value
}.

Definition succeeded : Result := mkResult true VUndefined VUndefined VUndefined.
Definition succeeded_vid (v : value) : Result := mkResult true v VUndefined VUndefined.
Definition succeeded_deal (d : value) : Result := mkResult true VUndefined d VUndefined.
Definition failed (e : value) : Result := mkResult false VUndefined VUndefined e.

(** [s || d] for an optional string. *)
Definition str_or (s : option string) (d : string) : string :=
  match s with
  | Some x => if JsString.is_empty x then d else x
  | None => d
  end.

(** [error instanceof Error ? error.message : 'Unknown error'] *)
Definition error_text (e : thrown) : value :=
  match e with
  | ThrownError m => VStr m
  | ThrownOther _ => VStr "Unknown error"
  end.

(** [getHubSpotApiKey()], reading [process.env.HUBSPOT_API_KEY]. *)
Definition getHubSpotApiKey (env : option string) : Completion string :=
  match env with
  | Some apiKey =>
      if JsString.is_empty apiKey
      then Threw (ThrownError "HUBSPOT_API_KEY environment variable is not set")
      else Returned apiKey
  | None => Threw (ThrownError "HUBSPOT_API_KEY environment variable is not set")
  end.

(** [{ ...acc, [k]: v }] *)
Fixpoint set_key (k v : string) (acc : list (string * string)) : list (string * string) :=
  match acc with
  | [] => [(k, v)]
  | (k', v') :: rest =>
      if String.eqb k k' then (k, v) :: rest else (k', v') :: set_key k v rest
  end.

(** [properties.reduce((acc, p) => ({ ...acc, [p.property]: p.value }), {})] *)
Definition flat_object (properties : list (string * string)) : list (string * string) :=
  fold_left (fun acc p => set_key (fst p) (snd p) acc) properties [].

Definition contact_properties (contactData : HubSpotContact) : list (string * string) :=
  [ ("email", email contactData);
    ("firstname", str_or (firstName contactData) EmptyString);
    ("lastname", str_or (lastName contactData) EmptyString);
    ("company", str_or (company contactData) EmptyString);
    ("lifecyclestage", str_or (lifecycleStage contactData) "subscriber");
    ("hs_lead_status", "NEW") ]
  ++ match customFields contactData with
     | Some fields => fields
     | None => []
     end.

Section Client.
Context {W : Type}.

(** The global [fetch], acting on the remote world. *)
Variable fetch : Request -> W -> Settle Response * W.

(** [v > 0] for an operand that ECMAScript first converts through
    ToPrimitive and StringToNumber (a string, an array, an object). *)
Variable coerced_gt_zero : value -> bool.

Local Open Scope js_scope.

(** [v > 0] *)
Definition gt_zero (v : value) : bool :=
  match v with
  | VUndefined | VNull => false
  | VBool b => b
  | VNum n => 0 <? n
  | VStr _ | VArr _ | VObj _ => coerced_gt_zero v
  end.

(** [fetchWithRetry(url, options, retryOptions)] *)
Definition fetchWithRetry (req : Request) (retryOptions : Retry.RetryOptions)
  : M W Response :=
  Retry.retryWithBackoff
    (fun st => let (o, w) := fetch req (world st) in
               (o, mkState w (trace st ++ [Fetch req])))
    retryOptions.

Definition getContactByEmail (email apiKey : string) : M W value :=
  try_catch
    (response <- fetchWithRetry (SearchContacts apiKey email) Retry.no_options ;;
     if negb (ok response) then ret VNull
     else
       data <- lift (json response) ;;
       results <- lift (Js.get data "results") ;;
       let contacts := Js.or_else results (VArr []) in
       len <- lift (Js.get contacts "length") ;;
       if gt_zero len then lift (Js.get contacts "0") else ret VNull)
    (fun error =>
       console_error "Error fetching contact from HubSpot:" error ;;;
       ret VNull).

Definition createContact (properties : list (string * string)) (apiKey : string)
  : M W Result :=
  try_catch
    (response <- fetchWithRetry (PostContact apiKey (flat_object properties))
                                Retry.no_options ;;
     if negb (ok response) then
       error <- lift (json response) ;;
       message <- lift (Js.get error "message") ;;
       ret (failed (Js.or_else message (VStr "Failed to create contact")))
     else
       data <- lift (json response) ;;
       id <- lift (Js.get data "id") ;;
       ret (succeeded_vid id))
    (fun error =>
       console_error "Error creating contact in HubSpot:" error ;;;
       ret (failed (error_text error))).

(** The PATCH is named by the [vid] it is addressed to: its address
    ([address_of] below) ends in the text of that [vid],
    [JsText.to_string vid].  The embedding is exact for a [vid] that has
    such a text; for one that has none (an object with a [toString] entry
    of its own) the source throws while building the address and sends
    nothing. *)
Definition updateContact (vid : value) (properties : list (string * string))
           (apiKey : string) : M W Result :=
  try_catch
    (response <- fetchWithRetry (PatchContact apiKey vid (flat_object properties))
                                Retry.no_options ;;
     if negb (ok response) then
       error <- lift (json response) ;;
       message <- lift (Js.get error "message") ;;
       ret (failed (Js.or_else message (VStr "Failed to update contact")))
     else
       ret (succeeded_vid vid))
    (fun error =>
       console_error "Error updating contact in HubSpot:" error ;;;
       ret (failed (error_text error))).

Definition syncContactToHubSpot (env : option string) (contactData : HubSpotContact)
  : M W Result :=
  try_catch
    (apiKey <- lift (getHubSpotApiKey env) ;;
     let properties := contact_properties contactData in
     existingContact <- getContactByEmail (email contactData) apiKey ;;
     if Js.truthy (Js.get_opt existingContact "vid") then
       updateContact (Js.get_opt existingContact "vid") properties apiKey
     else
       createContact properties apiKey)
    (fun error =>
       console_error "HubSpot sync error:" error ;;;
       ret (failed (error_text error))).

Definition addContactToList (env : option string) (email listId : string)
  : M W Result :=
  try_catch
    (apiKey <- lift (getHubSpotApiKey env) ;;
     response <- fetchWithRetry (PostListMember apiKey listId email)
                                Retry.no_options ;;
     if negb (ok response) then
       error <- lift (json response) ;;
       message <- lift (Js.get error "message") ;;
       ret (failed (Js.or_else message (VStr "Failed to add contact to list")))
     else
       ret succeeded)
    (fun error =>
       console_error "Error adding contact to HubSpot list:" error ;;;
       ret (failed (error_text error))).

Record DealData : Type := mkDeal {
  contactEmail : string;
  dealName : string;
  dealStage : option string;
  dealAmount : option Z;
  dealProperties : option (list (string * string))
}.

(** [String(data.dealAmount || 0)] *)
Definition amount_text (a : option Z) : string :=
  match a with
  | Some n => JsString.of_Z n
  | None => "0"
  end.

Definition deal_properties (data : DealData) : list (string * string) :=
  [ ("dealname", dealName data);
    ("dealstage", str_or (dealStage data) "negotiation");
    ("amount", amount_text (dealAmount data)) ]
  ++ match dealProperties data with
     | Some fields => fields
     | None => []
     end.

Definition createHubSpotDeal (env : option string) (data : DealData) : M W Result :=
  try_catch
    (apiKey <- lift (getHubSpotApiKey env) ;;
     response <- fetchWithRetry (PostDeal apiKey (deal_properties data))
                                Retry.no_options ;;
     if negb (ok response) then
       error <- lift (json response) ;;
       message <- lift (Js.get error "message") ;;
       ret (failed (Js.or_else message (VStr "Failed to create deal")))
     else
       result <- lift (json response) ;;
       id <- lift (Js.get result "id") ;;
       ret (succeeded_deal id))
    (fun error =>
       console_error "Error creating HubSpot deal:" error ;;;
       ret (failed (error_text error))).

Record ActivityData : Type := mkActivity {
  activityEmail : string;
  activityType : string;
  activityText : string
}.

Definition logActivityToHubSpot (env : option string) (data : ActivityData)
  : M W Result :=
  try_catch
    (apiKey <- lift (getHubSpotApiKey env) ;;
     contact <- getContactByEmail (activityEmail data) apiKey ;;
     if negb (Js.truthy (Js.get_opt contact "vid")) then
       ret (failed (VStr "Contact not found in HubSpot"))
     else
       response <- fetchWithRetry
                     (PostNote apiKey
                               [ ("hs_note_body", activityText data);
                                 ("hs_activity_type", activityType data) ]
                               (Js.get_opt contact "vid"))
                     Retry.no_options ;;
       if negb (ok response) then
         error <- lift (json response) ;;
         message <- lift (Js.get error "message") ;;
         ret (failed (Js.or_else message (VStr "Failed to log activity")))
       else
         ret succeeded)
    (fun error =>
       console_error "Error logging activity to HubSpot:" error ;;;
       ret (failed (error_text error))).

End Client.

End HubSpot.

(* ================================================================= *)
(** ** Remote worlds *)

(** A scripted remote, as [jest.fn()] with [mockResolvedValueOnce] /
    [mockRejectedValueOnce] answers queued in front of a
    [mockResolvedValue] default. *)
Module Scripted.

Record Mock : Type := mkMock {
  once : list (Settle Response);
  default : Settle Response
}.

Definition fetch (_ : Request) (m : Mock) : Settle Response * Mock :=
  match once m with
  | o :: rest => (o, mkMock rest (default m))
  | [] => (default m, m)
  end.

Definition http (status : Z) (body : value) : Settle Response :=
  Resolved (mkResponse status (Returned body)).

(** Coercions of strings, arrays and objects to numbers play no part in
    the scenarios below. *)
Definition no_coercion (_ : value) : bool := false.

Definition start (m : Mock) : State Mock := mkState m [].

End Scripted.

(** A contact store that answers as the CRM's v3 object API does in the
    test-suite: a search yields [{ results: [{ id, properties }] }] with the
    matching contact of greatest id, a create yields [{ id }] for a fresh id,
    a patch addresses a contact by id. *)
Module Crm.

Record Contact : Type := mkContact {
  id : Z;
  properties : list (string * string)
}.

Record Store : Type := mkStore {
  contacts : list Contact;
  nextId : Z
}.

Fixpoint prop (k : string) (ps : list (string * string)) : option string :=
  match ps with
  | [] => None
  | (k', v) :: rest => if String.eqb k k' then Some v else prop k rest
  end.

Definition has_email (e : string) (c : Contact) : bool :=
  match prop "email" (properties c) with
  | Some e' => String.eqb e e'
  | None => false
  end.

(** The match of greatest id, if any. *)
Definition newest (cs : list Contact) : option Contact :=
  fold_left (fun best c =>
               match best with
               | Some b => if id b <? id c then Some c else Some b
               | None => Some c
               end) cs None.

Definition render (c : Contact) : value :=
  VObj [ ("id", VNum (id c));
         ("properties", VObj (map (fun p => (fst p, VStr (snd p))) (properties c))) ].

Definition has_id (v : value) (c : Contact) : bool :=
  match v with
  | VNum n => n =? id c
  | _ => false
  end.

Definition patch (v : value) (ps : list (string * string)) (c : Contact) : Contact :=
  if has_id v c
  then mkContact (id c) (fold_left (fun acc p => HubSpot.set_key (fst p) (snd p) acc)
                                   ps (properties c))
  else c.

Definition fetch (req : Request) (s : Store) : Settle Response * Store :=
  match req with
  | SearchContacts _ e =>
      let found := match newest (filter (has_email e) (contacts s)) with
                   | Some c => [render c]
                   | None => []
                   end in
      (Resolved (mkResponse 200 (Returned (VObj [("results", VArr found)]))), s)
  | PostContact _ ps =>
      let c := mkContact (nextId s) ps in
      (Resolved (mkResponse 201 (Returned (render c))),
       mkStore (contacts s ++ [c]) (nextId s + 1))
  | PatchContact _ v ps =>
      if existsb (has_id v) (contacts s)
      then (Resolved (mkResponse 200 (Returned (VObj [("id", v)]))),
            mkStore (map (patch v ps) (contacts s)) (nextId s))
      else (Resolved (mkResponse 404 (Returned (VObj [("message", VStr "resource not found")]))), s)
  | _ => (Resolved (mkResponse 200 (Returned (VObj []))), s)
  end.

Definition empty : Store := mkStore [] 1.

End Crm.

(** An operation that acts on the remote world only; [run_op] is what
    [retryWithBackoff] receives for it. *)
Definition run_op {W T} (op : W -> Settle T * W) (st : State W) : Settle T * State W :=
  let (o, w) := op (world st) in (o, mkState w (trace st)).

(** [error.includes(s)] for an error text. *)
Definition value_includes (s : string) (v : value) : bool :=
  match v with
  | VStr m => JsString.includes s m
  | _ => false
  end.

(** A result is well formed when it is one of the two variants of the
    union: a success without an error, or a failure with an error text and
    no identifier. *)
Definition well_formed (r : HubSpot.Result) : Prop :=
  (HubSpot.success r = true /\ HubSpot.error r = VUndefined)
  \/ (HubSpot.success r = false /\ HubSpot.vid r = VUndefined
      /\ Js.is_defined (HubSpot.error r) = true).

(** [m] fulfils on every state, with a result satisfying [P]. *)
Definition always_returns {W A} (P : A -> Prop) (m : M W A) : Prop :=
  forall st, exists a st', m st = (Returned a, st') /\ P a.

(** Whenever [m] fulfils, its result satisfies [P]. *)
Definition returns_only {W A} (P : A -> Prop) (m : M W A) : Prop :=
  forall st a st', m st = (Returned a, st') -> P a.

(** The credential is absent when the variable is unset or empty. *)
Definition credential_absent (env : option string) : Prop :=
  env = None \/ env = Some EmptyString.

(** The remote answers [req] in world [w] with a non-2xx response whose
    JSON body carries the truthy message [msg]. *)
Definition refuses {W} (fetch : Request -> W -> Settle Response * W)
           (req : Request) (w w' : W) (msg : value) : Prop :=
  exists r body,
    fetch req w = (Resolved r, w')
    /\ ok r = false
    /\ json r = Returned body
    /\ Js.get body "message" = Returned msg
    /\ Js.truthy msg = true.

(** [r] is a non-2xx response whose JSON body carries the truthy message
    [msg]. *)
Definition error_response (r : Response) (msg : value) : Prop :=
  ok r = false
  /\ exists body, json r = Returned body
                  /\ Js.get body "message" = Returned msg
                  /\ Js.truthy msg = true.

(* ================================================================= *)
(** ** Scenarios *)

Module Scenario.

Import Scripted.

(** Operations in the manner of [jest.fn().mockRejectedValue(...)]; the
    world is the mock's call count. *)
Definition always_refused (calls : nat) : Settle Z * nat :=
  (Rejected (ThrownError "ECONNREFUSED"), S calls).

Definition bad_request (calls : nat) : Settle Z * nat :=
  (Rejected (ThrownError "400 Bad Request"), S calls).

Definition jane : HubSpot.HubSpotContact :=
  HubSpot.mkContact "jane@example.com" (Some "Jane") (Some "Roe")
                    None None None None.

Definition jane_properties : list (string * string) :=
  [ ("email", "jane@example.com"); ("firstname", "Jane"); ("lastname", "Roe");
    ("company", EmptyString); ("lifecyclestage", "subscriber"); ("hs_lead_status", "NEW") ].

Definition key : string := "test-api-key-123".

Definition sync (m : Mock) : Completion HubSpot.Result * State Mock :=
  HubSpot.syncContactToHubSpot fetch no_coercion (Some key) jane (start m).

Definition rate_limited : Settle Response :=
  http 429 (VObj [("message", VStr "You have reached your secondly limit.")]).

(** 429, 429, then 200. *)
Definition rate_limited_twice : Mock :=
  mkMock [ rate_limited; rate_limited ] (http 200 (VObj [("id", VNum 12345)])).

(** The same, had [fetch] rejected on a 429 instead of fulfilling. *)
Definition rate_limit_thrown_twice : Mock :=
  mkMock [ Rejected (ThrownError "HTTP 429 Too Many Requests");
           Rejected (ThrownError "HTTP 429 Too Many Requests");
           http 200 (VObj [("results", VArr [])]) ]
         (http 201 (VObj [("id", VNum 12345)])).

Definition unauthorized : Settle Response :=
  http 401 (VObj [("message", VStr "Authentication credentials not found.")]).

(** 401 on every call. *)
Definition unauthorized_always : Mock := mkMock [] unauthorized.

(** 401 on the first call only. *)
Definition unauthorized_once : Mock :=
  mkMock [ unauthorized ] (http 201 (VObj [("id", VNum 12345)])).

(** [{ ok: true, json: async () => ({}) }] on every call. *)
Definition empty_bodies : Mock := mkMock [] (http 200 (VObj [])).



(** The answers queued by the test "should update an existing contact":
    a search result naming the contact by [id], then [{}]. *)
Definition existing_contact : Mock :=
  mkMock [ http 200 (VObj [("results",
                            VArr [ VObj [ ("id", VNum 67890);
                                          ("properties",
                                           VObj [("email",
                                                  VObj [("value", VStr "jane@example.com")])]) ] ])]);
           http 200 (VObj []) ]
         (http 200 (VObj [])).

(** Two submissions of the same contact, one after the other, against an
    empty contact store. *)
Definition sync_twice
  : Completion HubSpot.Result * Completion HubSpot.Result * State Crm.Store :=
  let (r1, st1) := HubSpot.syncContactToHubSpot Crm.fetch no_coercion (Some key) jane
                     (mkState Crm.empty []) in
  let (r2, st2) := HubSpot.syncContactToHubSpot Crm.fetch no_coercion (Some key) jane
                     st1 in
  (r1, r2, st2).

End Scenario.

(* ================================================================= *)
(** ** Measures of a trace *)

(** The backoff delays after attempts [attempt], [attempt + 1], ...:
    [count] of them. *)
Fixpoint schedule (initialDelayMs : Z) (attempt : Z) (count : nat) : list Z :=
  match count with
  | O => []
  | S count' => initialDelayMs * 2 ^ (attempt - 1)
                :: schedule initialDelayMs (attempt + 1) count'
  end.

(** Milliseconds spent in the given waits. *)
Definition total (delays : list Z) : Z := fold_right Z.add 0 delays.

(** An operation handed to [retryWithBackoff] is [quiet] when a run of it
    leaves in the trace the network calls [issued] and nothing of the
    executor's own (no invocation mark, no wait). *)
Definition quiet {W T} (issued : list Request) (fn : State W -> Settle T * State W)
  : Prop :=
  forall st,
    invocations (trace (snd (fn st))) = invocations (trace st)
    /\ waits (trace (snd (fn st))) = waits (trace st)
    /\ network_calls (trace (snd (fn st))) = (network_calls (trace st) ++ issued)%list.

(** The credential a request carries in its [Authorization] header. *)
Definition credential_of (req : Request) : string :=
  match req with
  | SearchContacts apiKey _ => apiKey
  | PostContact apiKey _ => apiKey
  | PatchContact apiKey _ _ => apiKey
  | PostListMember apiKey _ _ => apiKey
  | PostDeal apiKey _ => apiKey
  | PostNote apiKey _ _ => apiKey
  end.


(** What a computation may add to the trace: at most [calls] network
    calls, all carrying the credential [key], and backoff waits of at most
    [budget] milliseconds in all. *)
Definition footprint {W A} (calls : nat) (budget : Z) (key : string) (m : M W A) : Prop :=
  forall st, exists sent delays,
      network_calls (trace (snd (m st))) = (network_calls (trace st) ++ sent)%list
      /\ waits (trace (snd (m st))) = (waits (trace st) ++ delays)%list
      /\ (List.length sent <= calls)%nat
      /\ Forall (fun req => credential_of req = key) sent
      /\ Forall (fun d => 0 <= d) delays
      /\ total delays <= budget.

(* ================================================================= *)
(** ** The integration test endpoint (GET and POST handlers)

    The route handlers that run a contact through [syncContactToHubSpot]
    and turn its result into an HTTP reply. *)

Module TestEndpoint.

(** [NextResponse.json(body, { status })] *)
Record Reply : Type := mkReply {
  code : Z;
  payload : value
}.

(** The readings of the clock a handler takes: [Date.now()] and the two
    [new Date().toISOString()] of a success reply. *)
Record Clock : Type := mkClock {
  now : Z;
  syncedAt : string;
  loggedAt : string
}.

Definition is_string (s : string) (v : value) : bool :=
  match v with
  | VStr s' => String.eqb s s'
  | _ => false
  end.

(** [v?.includes(needle)]: a string searches its text, an array its
    elements, [null] and [undefined] give [undefined]; anything else has
    no such method and the call throws a [TypeError]. *)
Definition includes_opt (what : string) (v : value) (needle : string) : Completion value :=
  match v with
  | VUndefined | VNull => Returned VUndefined
  | VStr s => Returned (VBool (JsString.includes needle s))
  | VArr items => Returned (VBool (existsb (is_string needle) items))
  | VBool _ | VNum _ | VObj _ =>
      Threw (ThrownError (what ++ ".includes is not a function"))
  end.

Definition console_log {W} (line : string) : M W unit :=
  fun st => (Returned tt, emit (ConsoleLog line) st).

(** [console.error] of one interpolated line, [label] followed by the
    text of a value: the same output as [console.error(label, text)]. *)
Definition console_error_line {W} (label : string) (text : string) : M W unit :=
  fun st => (Returned tt, emit (ConsoleError label (ThrownOther text)) st).

Definition str (s : string) : value := VStr s.

Definition next_steps : value :=
  VArr [ str "Check HubSpot portal for the test contact";
         str "Verify the contact appears in your HubSpot CRM";
         str "Check database sync_log table for verification";
         str "Contact form submissions will now sync automatically" ].

(** [!apiKey] *)
Definition key_missing (env : option string) : bool :=
  match env with
  | Some apiKey => JsString.is_empty apiKey
  | None => true
  end.

Section Handlers.
Context {W : Type}.
Variable fetch : Request -> W -> Settle Response * W.
Variable coerced_gt_zero : value -> bool.

Local Open Scope js_scope.

(** [syncResult.error?.includes('401') || syncResult.error?.includes('Unauthorized')] *)
Definition is_auth_error (error : value) : Completion bool :=
  match includes_opt "syncResult.error?" error "401" with
  | Threw e => Threw e
  | Returned a =>
      if Js.truthy a then Returned true
      else match includes_opt "syncResult.error?" error "Unauthorized" with
           | Threw e => Threw e
           | Returned b => Returned (Js.truthy b)
           end
  end.

Definition GET (env : option string) (clock : Clock) : M W Reply :=
  try_catch
    (if key_missing env then
       ret (mkReply 401
              (VObj [ ("status", str "error");
                      ("message", str "HUBSPOT_API_KEY environment variable is not set") ]))
     else
       let timestamp := now clock in
       let testEmail := "test-" ++ JsString.of_Z timestamp ++ "@aurigraph.io" in
       let testContactData :=
         HubSpot.mkContact testEmail (Some "Test") (Some "Contact")
                           (Some "Aurigraph Testing") (Some "subscriber") None None in
       console_log ("[HubSpot Test] Creating test contact: " ++ testEmail) ;;;
       syncResult <- HubSpot.syncContactToHubSpot fetch coerced_gt_zero env testContactData ;;
       if negb (HubSpot.success syncResult) then
         text <- lift (JsText.to_string (HubSpot.error syncResult)) ;;
         console_error_line "[HubSpot Test] Sync failed:" text ;;;
         auth <- lift (is_auth_error (HubSpot.error syncResult)) ;;
         if auth then
           ret (mkReply 401
                  (VObj [ ("status", str "error");
                          ("message", str "Invalid HubSpot API key");
                          ("error", HubSpot.error syncResult) ]))
         else
           ret (mkReply 500
                  (VObj [ ("status", str "error");
                          ("message", str "Failed to sync contact to HubSpot");
                          ("error", HubSpot.error syncResult);
                          ("testEmail", str testEmail) ]))
       else
         text <- lift (JsText.to_string (HubSpot.vid syncResult)) ;;
         console_log ("[HubSpot Test] Contact created successfully: " ++ text) ;;;
         ret (mkReply 200
                (VObj [ ("status", str "success");
                        ("message", str "HubSpot integration is working correctly");
                        ("testContact",
                         VObj [ ("email", str testEmail);
                                ("firstName", str "Test");
                                ("lastName", str "Contact");
                                ("company", str "Aurigraph Testing");
                                ("hubspotId", HubSpot.vid syncResult);
                                ("syncedAt", str (syncedAt clock)) ]);
                        ("syncLog",
                         VObj [ ("synced", VBool true);
                                ("timestamp", str (loggedAt clock));
                                ("attempts", VNum 1) ]);
                        ("nextSteps", next_steps) ])))
    (fun error =>
       console_error "[HubSpot Test] Unexpected error:" error ;;;
       ret (mkReply 500
              (VObj [ ("status", str "error");
                      ("message", str "Unexpected error during HubSpot integration test");
                      ("error", HubSpot.error_text error) ]))).

(** A posted contact, read as the [HubSpotContact] the handler passes on.
    An optional field is left out when it is falsy ([x || d] then gives
    [d]) and must otherwise be a string; custom fields are an object of
    strings. *)
Definition optional_string (v : value) : option (option string) :=
  match v with
  | VStr s => Some (if JsString.is_empty s then None else Some s)
  | _ => if Js.truthy v then None else Some None
  end.

Fixpoint string_entries (fields : list (string * value)) : option (list (string * string)) :=
  match fields with
  | [] => Some []
  | (k, VStr s) :: rest =>
      match string_entries rest with
      | Some entries => Some ((k, s) :: entries)
      | None => None
      end
  | _ => None
  end.

Definition optional_fields (v : value) : option (option (list (string * string))) :=
  match v with
  | VObj fields => match string_entries fields with
                   | Some entries => Some (Some entries)
                   | None => None
                   end
  | _ => if Js.truthy v then None else Some None
  end.

Definition contact_of_json (body : list (string * value)) : option HubSpot.HubSpotContact :=
  match Js.lookup "email" body,
        optional_string (Js.lookup "firstName" body),
        optional_string (Js.lookup "lastName" body),
        optional_string (Js.lookup "company" body),
        optional_string (Js.lookup "lifecycleStage" body),
        optional_fields (Js.lookup "customFields" body) with
  | VStr email, Some firstName, Some lastName, Some company, Some lifecycleStage,
    Some customFields =>
      Some (HubSpot.mkContact email firstName lastName company lifecycleStage
                              None customFields)
  | _, _, _, _, _, _ => None
  end.

(** [contactData.firstName || 'N/A'] on a posted contact. *)
Definition or_na (v : value) : value := Js.or_else v (str "N/A").

(** The POST handler, on the outcome of [request.json()].  Its result is
    [None] for the bodies this embedding does not cover: those that get
    past the handler's own checks with a contact whose fields are not
    strings. *)
Definition POST (env : option string) (clock : Clock) (body : Completion value)
  : option (M W Reply) :=
  let unexpected :=
    fun error : thrown =>
      console_error "[HubSpot Test POST] Error:" error ;;;
      ret (mkReply 500
             (VObj [ ("status", str "error");
                     ("message", str "Unexpected error");
                     ("error", HubSpot.error_text error) ])) in
  if key_missing env then
    Some (try_catch
            (ret (mkReply 401
                    (VObj [ ("status", str "error");
                            ("message", str "HUBSPOT_API_KEY is not configured") ])))
            unexpected)
  else
    match body with
    | Threw _ =>
        Some (try_catch
                (ret (mkReply 400
                        (VObj [ ("status", str "error");
                                ("message", str "Invalid JSON in request body") ])))
                unexpected)
    | Returned contactData =>
        match Js.get contactData "email" with
        | Threw e => Some (try_catch (lift (Threw e)) unexpected)
        | Returned email =>
            if negb (Js.truthy email) then
              Some (try_catch
                      (ret (mkReply 400
                              (VObj [ ("status", str "error");
                                      ("message", str "Missing required field: email") ])))
                      unexpected)
            else
              match contactData with
              | VObj fields =>
                  match contact_of_json fields with
                  | Some contact =>
                      Some
                        (try_catch
                           (console_log ("[HubSpot Test] Syncing contact: "
                                         ++ HubSpot.email contact) ;;;
                            syncResult <- HubSpot.syncContactToHubSpot
                                            fetch coerced_gt_zero env contact ;;
                            if negb (HubSpot.success syncResult) then
                              auth <- lift (is_auth_error (HubSpot.error syncResult)) ;;
                              if auth then
                                ret (mkReply 401
                                       (VObj [ ("status", str "error");
                                               ("message", str "Invalid HubSpot API key");
                                               ("error", HubSpot.error syncResult) ]))
                              else
                                ret (mkReply 500
                                       (VObj [ ("status", str "error");
                                               ("message", str "Failed to sync contact");
                                               ("error", HubSpot.error syncResult) ]))
                            else
                              ret (mkReply 200
                                     (VObj [ ("status", str "success");
                                             ("message", str "Contact synced successfully");
                                             ("contact",
                                              VObj [ ("email", Js.lookup "email" fields);
                                                     ("firstName",
                                                      or_na (Js.lookup "firstName" fields));
                                                     ("lastName",
                                                      or_na (Js.lookup "lastName" fields));
                                                     ("hubspotId", HubSpot.vid syncResult);
                                                     ("syncedAt", str (syncedAt clock)) ]) ])))
                           unexpected)
                  | None => None
                  end
              | _ => None
              end
        end
    end.

End Handlers.

End TestEndpoint.

(** The contact the GET handler builds, and the state in which it hands
    it to the sync. *)
Definition test_email (clock : TestEndpoint.Clock) : string :=
  "test-" ++ JsString.of_Z (TestEndpoint.now clock) ++ "@aurigraph.io".

Definition test_contact (clock : TestEndpoint.Clock) : HubSpot.HubSpotContact :=
  HubSpot.mkContact (test_email clock) (Some "Test") (Some "Contact")
                    (Some "Aurigraph Testing") (Some "subscriber") None None.

Definition announced {W} (clock : TestEndpoint.Clock) (st : State W) : State W :=
  emit (ConsoleLog ("[HubSpot Test] Creating test contact: " ++ test_email clock)) st.

(** The statuses the handlers document. *)
Definition http_code (r : TestEndpoint.Reply) : Prop :=
  TestEndpoint.code r = 200 \/ TestEndpoint.code r = 400
  \/ TestEndpoint.code r = 401 \/ TestEndpoint.code r = 500.

(** The status the handlers give to a failure whose error is the text
    [text]. *)
Definition failure_code (text : string) : Z :=
  if JsString.includes "401" text || JsString.includes "Unauthorized" text
  then 401 else 500.

(* ================================================================= *)
(** ** More scenarios *)

Module Cases.

Import Scripted.

(** Operations on a call counter. *)
Definition fulfils (calls : nat) : Settle Z * nat := (Resolved 7, S calls).

Definition never_settles (calls : nat) : Settle Z * nat := (Unsettled, S calls).


(** [mockRejectedValueOnce(new Error('ECONNREFUSED'))] then
    [mockResolvedValueOnce]. *)
Definition flaky (calls : nat) : Settle Z * nat :=
  match calls with
  | O => (Rejected (ThrownError "ECONNREFUSED"), S calls)
  | _ => (Resolved 7, S calls)
  end.

(** A remote that settles every call in the same way. *)
Definition always (o : Settle Response) (_ : Request) (w : unit) : Settle Response * unit :=
  (o, w).

Definition network_down : Request -> unit -> Settle Response * unit :=
  always (Rejected (ThrownError "ECONNREFUSED")).

Definition unauthorized_response : Response :=
  mkResponse 401 (Returned (VObj [("message", VStr "Authentication credentials not found.")])).

Definition rejects_credential : Request -> unit -> Settle Response * unit :=
  always (Resolved unauthorized_response).



(** No contact yet, then the answer to the create. *)
Definition not_found_then_created : Mock :=
  mkMock [ http 200 (VObj [("results", VArr [])]) ]
         (http 201 (VObj [("id", VNum 12345)])).

(** No contact yet, then a create answered with an [id] that cannot be
    written as text: the JSON document [{"id": {"toString": 1}}]. *)
Definition created_with_unwritable_id : Mock :=
  mkMock [ http 200 (VObj [("results", VArr [])]) ]
         (http 201 (VObj [("id", VObj [("toString", VNum 1)])])).

Definition jane_activity : HubSpot.ActivityData :=
  HubSpot.mkActivity "jane@example.com" "form_submission"
                     "User submitted demo request form".

Definition noon : TestEndpoint.Clock :=
  TestEndpoint.mkClock 1767096000000 "2025-12-30T12:00:00.000Z" "2025-12-30T12:00:00.001Z".

Definition posted : list (string * value) :=
  [ ("email", VStr "custom@example.com"); ("firstName", VStr "John");
    ("lastName", VStr "Doe"); ("company", VStr "Test Corp") ].

Definition posted_contact : HubSpot.HubSpotContact :=
  HubSpot.mkContact "custom@example.com" (Some "John") (Some "Doe") (Some "Test Corp")
                    None None None.

End Cases.

(* ================================================================= *)
(** * Properties *)

(** ** Traces *)

Lemma invocations_app (a b : list Event) :
  invocations (a ++ b) = (invocations a + invocations b)%nat.
Proof.
  induction a as [|e a IH]; simpl; [reflexivity|].
  destruct e; simpl; rewrite IH; reflexivity.
Qed.

Lemma waits_app (a b : list Event) : waits (a ++ b) = (waits a ++ waits b)%list.
Proof.
  induction a as [|e a IH]; simpl; [reflexivity|].
  destruct e; simpl; rewrite IH; reflexivity.
Qed.

Lemma network_calls_app (a b : list Event) :
  network_calls (a ++ b) = (network_calls a ++ network_calls b)%list.
Proof.
  induction a as [|e a IH]; simpl; [reflexivity|].
  destruct e; simpl; rewrite IH; reflexivity.
Qed.

Ltac trace_simpl :=
  unfold emit; cbn [trace world];
  rewrite ?invocations_app, ?waits_app, ?network_calls_app;
  cbn [invocations waits network_calls app];
  rewrite ?app_nil_r, ?Nat.add_0_r.

(** ** The retry executor *)

Section RetryFacts.
Context {W T : Type}.
Variable fn : State W -> Settle T * State W.
Variables maxAttempts timeoutMs initialDelayMs : Z.

Local Abbreviation loop := (Retry.loop fn maxAttempts timeoutMs initialDelayMs).

Definition warn_line (attempt : Z) (message : string) : Event :=
  ConsoleWarn ("HubSpot API error on attempt " ++ JsString.of_Z attempt
               ++ "/" ++ JsString.of_Z maxAttempts ++ ": " ++ message
               ++ " (retryable: "
               ++ JsString.of_bool (Retry.isRetryableError message) ++ ")").

Definition retry_line (delayMs : Z) : Event :=
  ConsoleLog ("Retrying HubSpot API call in " ++ JsString.of_Z delayMs ++ "ms...").

(** An attempt that fulfils before its timer ends the loop. *)
Lemma loop_fulfilled n attempt last st r st1 :
  fn (emit (Invoke attempt) st) = (Resolved r, st1) ->
  loop (S n) attempt last st
  = (Returned r,
     if 1 <? attempt
     then emit (ConsoleLog ("HubSpot API call succeeded on attempt "
                            ++ JsString.of_Z attempt)) st1
     else st1).
Proof.
  intros Hfn. cbn [Retry.loop]. unfold Retry.iteration. rewrite Hfn. reflexivity.
Qed.

(** A failed attempt that is the last one, or whose error is not
    retryable, rethrows at once. *)
Lemma loop_gives_up n attempt last st o st1 e :
  fn (emit (Invoke attempt) st) = (o, st1) ->
  Retry.race timeoutMs o = inr e ->
  (attempt =? maxAttempts) || negb (Retry.isRetryableError (Retry.as_error e)) = true ->
  loop (S n) attempt last st
  = (Threw (ThrownError (Retry.as_error e)),
     emit (warn_line attempt (Retry.as_error e)) st1).
Proof.
  intros Hfn Hrace Hstop. cbn [Retry.loop]. unfold Retry.iteration.
  rewrite Hfn, Hrace. cbv zeta. rewrite Hstop. reflexivity.
Qed.

(** A failed attempt with a retryable error, not the last one, waits and
    goes round again. *)
Lemma loop_retries n attempt last st o st1 e :
  fn (emit (Invoke attempt) st) = (o, st1) ->
  Retry.race timeoutMs o = inr e ->
  attempt <> maxAttempts ->
  Retry.isRetryableError (Retry.as_error e) = true ->
  loop (S n) attempt last st
  = loop n (attempt + 1) (Some (Retry.as_error e))
         (emit (Wait (initialDelayMs * 2 ^ (attempt - 1)))
            (emit (retry_line (initialDelayMs * 2 ^ (attempt - 1)))
               (emit (warn_line attempt (Retry.as_error e)) st1))).
Proof.
  intros Hfn Hrace Hne Hretry. unfold warn_line, retry_line.
  cbn [Retry.loop]. unfold Retry.iteration. rewrite Hfn, Hrace. cbv zeta.
  apply Z.eqb_neq in Hne. rewrite Hne, Hretry. reflexivity.
Qed.

(** The [for] loop as written computes what [loop] does, given fuel for
    one more test of its condition than there are iterations left. *)
Lemma for_loop_enough_fuel remaining :
  forall fuel attempt last st,
    Z.of_nat remaining = Z.max 0 (maxAttempts - attempt + 1) ->
    (remaining < fuel)%nat ->
    Retry.for_loop fn maxAttempts timeoutMs initialDelayMs fuel attempt last st
    = Some (loop remaining attempt last st).
Proof.
  induction remaining as [|n IH]; intros fuel attempt last st Hrem Hfuel;
    (destruct fuel as [|fuel]; [lia|]); cbn [Retry.for_loop Retry.loop].
  - destruct (Z.leb_spec attempt maxAttempts) as [Hle|Hgt]; [lia|reflexivity].
  - destruct (Z.leb_spec attempt maxAttempts) as [Hle|Hgt]; [|lia].
    destruct (Retry.iteration fn maxAttempts timeoutMs initialDelayMs attempt st)
      as [done|[e st1]]; [reflexivity|].
    apply IH; lia.
Qed.

End RetryFacts.

(** [retryWithBackoff] is the [for] loop started at attempt 1. *)
Lemma retryWithBackoff_as_written {W T} (fn : State W -> Settle T * State W)
      (options : Retry.RetryOptions) (st : State W) :
  let maxAttempts := Retry.config_maxAttempts options in
  Retry.for_loop fn maxAttempts (Retry.config_timeoutMs options)
                 (Retry.config_initialDelayMs options)
                 (S (Z.to_nat maxAttempts)) 1 None st
  = Some (Retry.retryWithBackoff fn options st).
Proof.
  intros maxAttempts. unfold Retry.retryWithBackoff.
  apply for_loop_enough_fuel; fold maxAttempts; lia.
Qed.

Lemma to_nat_nonpos (z : Z) : z <= 0 -> Z.to_nat z = 0%nat.
Proof. destruct z; simpl; intros H; try reflexivity; lia. Qed.

Lemma run_op_eq {W T} (op : W -> Settle T * W) (st : State W) o w :
  op (world st) = (o, w) -> run_op op st = (o, mkState w (trace st)).
Proof. intros H. unfold run_op. rewrite H. reflexivity. Qed.

(** The classification, on the messages the documentation of
    [isRetryableError] lists. *)
Lemma classification_examples :
  map Retry.isRetryableError
      [ "ECONNREFUSED"; "getaddrinfo ENOTFOUND api.hubapi.com"; "ETIMEDOUT";
        "Request timeout after 10000ms"; "429 Too Many Requests";
        "500 Internal Server Error"; "502 Bad Gateway";
        "503 Service Unavailable"; "504 Gateway Timeout" ]
  = [ true; true; true; true; true; true; true; true; true ]
  /\ map Retry.isRetryableError
         [ "400 Bad Request"; "401 Unauthorized"; "403 Forbidden"; "404 Not Found" ]
     = [ false; false; false; false ].
Proof. split; reflexivity. Qed.

(** The error of an attempt that times out is the wrapper's own, and is
    retryable whatever the timeout. *)
Lemma timeout_is_retryable (timeoutMs : Z) :
  Retry.isRetryableError (Retry.timeout_message timeoutMs) = true.
Proof.
  unfold Retry.isRetryableError. apply existsb_exists.
  exists "timeout after". split; [cbn; tauto|].
  unfold Retry.timeout_message. cbn. reflexivity.
Qed.

(** An operation that always rejects with a retryable error is invoked on
    every iteration that remains, with a wait between two of them, and the
    loop ends by throwing. *)
Lemma loop_exhausts {W T} (op : W -> Settle T * W) (maxAttempts timeoutMs initialDelayMs : Z) :
  (forall w, exists m, fst (op w) = Rejected (ThrownError m)
                       /\ Retry.isRetryableError m = true) ->
  forall remaining attempt last st,
    Z.of_nat (S remaining) = maxAttempts - attempt + 1 ->
    exists m st',
      Retry.loop (run_op op) maxAttempts timeoutMs initialDelayMs
                 (S remaining) attempt last st
      = (Threw (ThrownError m), st')
      /\ invocations (trace st') = (invocations (trace st) + S remaining)%nat
      /\ List.length (waits (trace st')) = (List.length (waits (trace st)) + remaining)%nat.
Proof.
  intros Hall. induction remaining as [|n IH]; intros attempt last st Hrem.
  - destruct (Hall (world st)) as (m & Em & Rm).
    exists m. eexists. split; [|split].
    + eapply loop_gives_up with (e := ThrownError m).
      * apply run_op_eq. cbn [emit world]. apply surjective_pairing.
      * cbn [Retry.race]. rewrite Em. reflexivity.
      * replace attempt with maxAttempts by lia. rewrite Z.eqb_refl. reflexivity.
    + trace_simpl. lia.
    + trace_simpl. lia.
  - destruct (Hall (world st)) as (m & Em & Rm).
    erewrite loop_retries with (e := ThrownError m); cycle 1.
    + apply run_op_eq. cbn [emit world]. apply surjective_pairing.
    + cbn [Retry.race]. rewrite Em. reflexivity.
    + lia.
    + exact Rm.
    + edestruct IH as (m' & st' & E & Hinv & Hwait); [|rewrite E].
      * lia.
      * exists m', st'. split; [reflexivity|]. split.
        -- rewrite Hinv. trace_simpl. lia.
        -- rewrite Hwait. trace_simpl. rewrite !length_app. cbn [List.length]. lia.
Qed.

(** C10: with [maxAttempts <= 0] the loop body never runs: the operation is
    not invoked (the state, world and trace, is returned untouched) and the
    promise rejects with the fallback error. *)
Theorem C10_no_attempts_fallback_error
  {W T} (fn : State W -> Settle T * State W) (options : Retry.RetryOptions) (st : State W) :
  Retry.config_maxAttempts options <= 0 ->
  Retry.retryWithBackoff fn options st
  = (Threw (ThrownError "Unknown error in retryWithBackoff"), st).
Proof.
  intros Hmax. unfold Retry.retryWithBackoff.
  rewrite (to_nat_nonpos Hmax). reflexivity.
Qed.

(** C5 (amended): for [maxAttempts >= 1], an operation whose first attempt
    rejects with a non-retryable error is invoked exactly once, and that
    very error is rethrown with no backoff wait. *)
Theorem C5_non_retryable_short_circuit
  {W T} (op : W -> Settle T * W) (options : Retry.RetryOptions) (st : State W)
  (message : string) (w' : W) :
  1 <= Retry.config_maxAttempts options ->
  op (world st) = (Rejected (ThrownError message), w') ->
  Retry.isRetryableError message = false ->
  exists tr,
    Retry.retryWithBackoff (run_op op) options st
    = (Threw (ThrownError message), mkState w' tr)
    /\ invocations tr = S (invocations (trace st))
    /\ waits tr = waits (trace st).
Proof.
  intros Hmax Hop Hnot. unfold Retry.retryWithBackoff.
  destruct (Z.to_nat (Retry.config_maxAttempts options)) as [|n] eqn:Hn; [lia|].
  erewrite loop_gives_up with (e := ThrownError message); cycle 1.
  - apply run_op_eq. exact Hop.
  - reflexivity.
  - cbn [Retry.as_error]. rewrite Hnot. apply orb_true_r.
  - unfold emit. cbn [Retry.as_error world trace].
    eexists. split; [reflexivity|]. split; trace_simpl.
    + lia.
    + reflexivity.
Qed.

(** C4: with [maxAttempts = 3], an operation that always rejects with a
    retryable error is invoked exactly three times (the world has gone
    through three runs of it), with two backoff waits in between, and the
    error thrown in the end is the one the third attempt produced. *)
Theorem C4_retry_exhaustion
  {W T} (op : W -> Settle T * W) (options : Retry.RetryOptions) (st : State W) :
  Retry.maxAttempts options = Some 3 ->
  (forall w, exists m, fst (op w) = Rejected (ThrownError m)
                       /\ Retry.isRetryableError m = true) ->
  let w1 := snd (op (world st)) in
  let w2 := snd (op w1) in
  let w3 := snd (op w2) in
  exists m3 tr,
    fst (op w2) = Rejected (ThrownError m3)
    /\ Retry.retryWithBackoff (run_op op) options st
       = (Threw (ThrownError m3), mkState w3 tr)
    /\ invocations tr = (invocations (trace st) + 3)%nat
    /\ waits tr = (waits (trace st)
                   ++ [ Retry.config_initialDelayMs options;
                        Retry.config_initialDelayMs options * 2 ])%list.
Proof.
  intros Hmax Hall w1 w2 w3.
  destruct (Hall (world st)) as (m1 & E1 & R1).
  destruct (Hall w1) as (m2 & E2 & R2).
  destruct (Hall w2) as (m3 & E3 & R3).
  exists m3.
  unfold Retry.retryWithBackoff, Retry.config_maxAttempts. rewrite Hmax.
  cbn [Retry.pick]. change (Z.to_nat 3) with 3%nat.
  erewrite loop_retries with (e := ThrownError m1);
    [ | apply run_op_eq; cbn [world emit]; apply surjective_pairing
      | cbn [Retry.race]; rewrite E1; reflexivity | lia | exact R1 ].
  erewrite loop_retries with (e := ThrownError m2);
    [ | apply run_op_eq; cbn [world emit]; apply surjective_pairing
      | cbn [Retry.race]; fold w1; rewrite E2; reflexivity | lia | exact R2 ].
  erewrite loop_gives_up with (e := ThrownError m3);
    [ | apply run_op_eq; cbn [world emit]; apply surjective_pairing
      | cbn [Retry.race]; fold w1 w2; rewrite E3; reflexivity
      | reflexivity ].
  unfold emit. cbn [Retry.as_error world trace].
  eexists. split; [exact E3|]. split; [reflexivity|].
  split; trace_simpl.
  - lia.
  - change (2 ^ (1 - 1)) with 1. change (2 ^ (1 + 1 - 1)) with 2.
    rewrite Z.mul_1_r, <- !app_assoc. reflexivity.
Qed.

(** ** Computations *)

Section Stepping.
Context {W A B : Type}.

Lemma bind_returned (m : M W A) (k : A -> M W B) st a st' :
  m st = (Returned a, st') -> bind m k st = k a st'.
Proof. intros H. unfold bind. rewrite H. reflexivity. Qed.

Lemma bind_threw (m : M W A) (k : A -> M W B) st e st' :
  m st = (Threw e, st') -> bind m k st = (Threw e, st').
Proof. intros H. unfold bind. rewrite H. reflexivity. Qed.

Lemma try_catch_returned (m : M W A) handler st a st' :
  m st = (Returned a, st') -> try_catch m handler st = (Returned a, st').
Proof. intros H. unfold try_catch. rewrite H. reflexivity. Qed.

Lemma try_catch_threw (m : M W A) handler st e st' :
  m st = (Threw e, st') -> try_catch m handler st = handler e st'.
Proof. intros H. unfold try_catch. rewrite H. reflexivity. Qed.

Lemma returns_only_ret (P : A -> Prop) (a : A) :
  P a -> returns_only (W := W) P (ret a).
Proof. intros Ha st a' st' E. unfold ret in E. congruence. Qed.

Lemma returns_only_bind (P : B -> Prop) (m : M W A) (k : A -> M W B) :
  (forall a, returns_only P (k a)) -> returns_only P (bind m k).
Proof.
  intros Hk st b st' E. unfold bind in E.
  destruct (m st) as [[a|e] st1].
  - exact (Hk a st1 b st' E).
  - discriminate.
Qed.

(** A [try] whose body can only return good results, and whose handler
    always returns one, always returns a good result. *)
Lemma try_catch_always (P : A -> Prop) (m : M W A) handler :
  returns_only P m ->
  (forall e, always_returns P (handler e)) ->
  always_returns P (try_catch m handler).
Proof.
  intros Hm Hh st. unfold try_catch.
  destruct (m st) as [[a|e] st1] eqn:E.
  - exists a, st1. split; [reflexivity|]. exact (Hm st a st1 E).
  - apply Hh.
Qed.

Lemma always_returns_only (P : A -> Prop) (m : M W A) :
  always_returns P m -> returns_only P m.
Proof.
  intros H st a st' E. destruct (H st) as (a' & st'' & E' & Ha).
  rewrite E in E'. congruence.
Qed.

End Stepping.

Lemma handler_always {W A} (P : A -> Prop) label e (a : A) :
  P a -> always_returns (W := W) P (bind (console_error label e) (fun _ => ret a)).
Proof.
  intros Ha st. exists a, (emit (ConsoleError label e) st). split; [reflexivity|exact Ha].
Qed.

Ltac returns_steps :=
  repeat first
    [ apply returns_only_bind; intro
    | apply returns_only_ret
    | match goal with
      | |- returns_only _ (if ?b then _ else _) => destruct b
      end ].

(** ** Shapes of results *)

Lemma or_else_defined (a b : value) :
  Js.is_defined b = true -> Js.is_defined (Js.or_else a b) = true.
Proof.
  intros Hb. unfold Js.or_else. destruct a; simpl; try exact Hb; try reflexivity.
  - destruct b0; [reflexivity|exact Hb].
  - destruct (n =? 0); [exact Hb|reflexivity].
  - destruct s; [exact Hb|reflexivity].
Qed.

Lemma well_formed_failed (e : value) :
  Js.is_defined e = true -> well_formed (HubSpot.failed e).
Proof. intros H. right. repeat split. exact H. Qed.

Lemma well_formed_failed_text (e : thrown) : well_formed (HubSpot.failed (HubSpot.error_text e)).
Proof. apply well_formed_failed. destruct e; reflexivity. Qed.

Lemma well_formed_succeeded_vid (v : value) : well_formed (HubSpot.succeeded_vid v).
Proof. left. split; reflexivity. Qed.

Create HintDb shapes.
#[local] Hint Resolve well_formed_failed well_formed_failed_text
  well_formed_succeeded_vid or_else_defined : shapes.

(** ** The directory client *)

Section ClientFacts.
Context {W : Type}.
Variable fetch : Request -> W -> Settle Response * W.
Variable coerced_gt_zero : value -> bool.

Local Abbreviation fetchWithRetry := (HubSpot.fetchWithRetry fetch).
Local Abbreviation createContact := (HubSpot.createContact fetch).
Local Abbreviation updateContact := (HubSpot.updateContact fetch).
Local Abbreviation getContactByEmail := (HubSpot.getContactByEmail fetch coerced_gt_zero).
Local Abbreviation syncContactToHubSpot := (HubSpot.syncContactToHubSpot fetch coerced_gt_zero).
Local Abbreviation addContactToList := (HubSpot.addContactToList fetch).
Local Abbreviation createHubSpotDeal := (HubSpot.createHubSpotDeal fetch).
Local Abbreviation logActivityToHubSpot := (HubSpot.logActivityToHubSpot fetch coerced_gt_zero).

(** A call that gets an HTTP response on its first attempt, whatever the
    status, is over: one network call, no wait. *)
Lemma fetchWithRetry_resolved req st r w' :
  fetch req (world st) = (Resolved r, w') ->
  fetchWithRetry req Retry.no_options st
  = (Returned r, mkState w' (trace st ++ [Invoke 1; Fetch req])).
Proof.
  intros H. unfold HubSpot.fetchWithRetry, Retry.retryWithBackoff.
  change (Z.to_nat (Retry.config_maxAttempts Retry.no_options)) with 3%nat.
  erewrite loop_fulfilled.
  - cbn [Z.ltb Z.compare]. reflexivity.
  - cbn [emit world trace]. rewrite H. rewrite <- app_assoc. reflexivity.
Qed.

Lemma createContact_always properties apiKey :
  always_returns well_formed (createContact properties apiKey).
Proof.
  apply try_catch_always.
  - returns_steps; auto with shapes.
  - intro e. apply handler_always. auto with shapes.
Qed.

Lemma updateContact_always vid properties apiKey :
  always_returns well_formed (updateContact vid properties apiKey).
Proof.
  apply try_catch_always.
  - returns_steps; auto with shapes.
  - intro e. apply handler_always. auto with shapes.
Qed.

(** C9: whatever the credential, the contact and the behaviour of the
    remote (HTTP errors, rejected calls, attempts that time out, retries
    that run out, bodies that are not what is expected), the promise of
    [syncContactToHubSpot] fulfils, with a well-formed success or failure
    object; it never rejects. *)
Theorem C9_sync_never_throws env contactData :
  forall st, exists r st',
    syncContactToHubSpot env contactData st = (Returned r, st')
    /\ well_formed r.
Proof.
  apply try_catch_always.
  - apply returns_only_bind; intro apiKey. cbv zeta.
    apply returns_only_bind; intro existingContact.
    destruct (Js.truthy (Js.get_opt existingContact "vid")).
    + apply always_returns_only, updateContact_always.
    + apply always_returns_only, createContact_always.
  - intro e. apply handler_always. auto with shapes.
Qed.

(** C6: without the credential, [syncContactToHubSpot] returns the
    failure whose text names [HUBSPOT_API_KEY]; the remote world is not
    touched and no network call is made (the only effect is the console
    line of the [catch]). *)
Theorem C6_missing_credential env contactData st :
  credential_absent env ->
  exists r st',
    syncContactToHubSpot env contactData st = (Returned r, st')
    /\ HubSpot.success r = false
    /\ value_includes "HUBSPOT_API_KEY" (HubSpot.error r) = true
    /\ world st' = world st
    /\ network_calls (trace st') = network_calls (trace st)
    /\ invocations (trace st') = invocations (trace st).
Proof.
  intros Habsent.
  assert (Hkey : HubSpot.getHubSpotApiKey env
                 = Threw (ThrownError "HUBSPOT_API_KEY environment variable is not set"))
    by (destruct Habsent; subst env; reflexivity).
  unfold HubSpot.syncContactToHubSpot.
  erewrite try_catch_threw
    by (apply bind_threw; unfold lift; rewrite Hkey; reflexivity).
  do 2 eexists. split; [reflexivity|].
  repeat split; trace_simpl; reflexivity.
Qed.

(** *** Non-2xx answers *)

Lemma or_else_truthy (a b : value) : Js.truthy a = true -> Js.or_else a b = a.
Proof. intros H. unfold Js.or_else. rewrite H. reflexivity. Qed.

(** What every [if (!response.ok)] branch does with such an answer. *)
Lemma report_refusal (r : Response) body msg fallback (st : State W)
      (otherwise : M W HubSpot.Result) :
  ok r = false ->
  json r = Returned body ->
  Js.get body "message" = Returned msg ->
  Js.truthy msg = true ->
  (if negb (ok r)
   then bind (lift (json r))
          (fun error => bind (lift (Js.get error "message"))
             (fun message => ret (HubSpot.failed (Js.or_else message (VStr fallback)))))
   else otherwise) st
  = (Returned (HubSpot.failed msg), st).
Proof.
  intros Hok Hjson Hmsg Htruthy. rewrite Hok. cbn [negb].
  unfold bind, lift, ret. rewrite Hjson, Hmsg. rewrite or_else_truthy by exact Htruthy.
  reflexivity.
Qed.

Lemma createContact_refused properties apiKey st w' msg :
  refuses fetch (PostContact apiKey (HubSpot.flat_object properties)) (world st) w' msg ->
  fst (createContact properties apiKey st) = Returned (HubSpot.failed msg).
Proof.
  intros (r & body & Hf & Hok & Hjson & Hmsg & Ht).
  unfold HubSpot.createContact.
  erewrite try_catch_returned; [reflexivity|].
  erewrite bind_returned by (apply fetchWithRetry_resolved; exact Hf).
  eapply report_refusal; eassumption.
Qed.





(** A non-2xx answer to the lookup is no failure: the contact is taken
    to be absent. *)
Lemma getContactByEmail_not_ok email apiKey st r w' :
  fetch (SearchContacts apiKey email) (world st) = (Resolved r, w') ->
  ok r = false ->
  getContactByEmail email apiKey st
  = (Returned VNull,
     mkState w' (trace st ++ [Invoke 1; Fetch (SearchContacts apiKey email)])).
Proof.
  intros Hf Hok. unfold HubSpot.getContactByEmail.
  erewrite try_catch_returned; [reflexivity|].
  erewrite bind_returned by (apply fetchWithRetry_resolved; exact Hf).
  rewrite Hok. reflexivity.
Qed.

End ClientFacts.

Lemma error_response_refuses {W} (fetch : Request -> W -> Settle Response * W)
      req w w' r msg :
  error_response r msg -> fetch req w = (Resolved r, w') -> refuses fetch req w w' msg.
Proof.
  intros (Hok & body & Hjson & Hmsg & Ht) Hf. exists r, body. auto.
Qed.


(** A 401 answer to the first network call, the lookup, does not stop
    [syncContactToHubSpot]: the lookup is not retried, the contact is taken
    as absent and a create call follows.  When the create is answered 401
    as well, with a JSON body, the result is the failure with the [message]
    of that body (or ['Failed to create contact'] when it has none), after
    exactly two network calls and no backoff wait: the status itself
    reaches the caller nowhere. *)
Lemma unauthorized_lookup_then_create
  {W} (fetch : Request -> W -> Settle Response * W) (coerced_gt_zero : value -> bool)
  env apiKey contactData (st : State W) r1 w1 r2 w2 body msg :
  HubSpot.getHubSpotApiKey env = Returned apiKey ->
  fetch (SearchContacts apiKey (HubSpot.email contactData)) (world st) = (Resolved r1, w1) ->
  status r1 = 401 ->
  fetch (PostContact apiKey (HubSpot.flat_object (HubSpot.contact_properties contactData))) w1
  = (Resolved r2, w2) ->
  status r2 = 401 ->
  json r2 = Returned body ->
  Js.get body "message" = Returned msg ->
  exists tr,
    HubSpot.syncContactToHubSpot fetch coerced_gt_zero env contactData st
    = (Returned (HubSpot.failed (Js.or_else msg (VStr "Failed to create contact"))),
       mkState w2 tr)
    /\ network_calls tr
       = (network_calls (trace st)
          ++ [ SearchContacts apiKey (HubSpot.email contactData);
               PostContact apiKey
                           (HubSpot.flat_object (HubSpot.contact_properties contactData)) ])%list
    /\ waits tr = waits (trace st).
Proof.
  intros Hkey Hf1 Hs1 Hf2 Hs2 Hjson Hmsg.
  assert (Hok1 : ok r1 = false) by (unfold ok; rewrite Hs1; reflexivity).
  assert (Hok2 : ok r2 = false) by (unfold ok; rewrite Hs2; reflexivity).
  unfold HubSpot.syncContactToHubSpot.
  erewrite try_catch_returned; cycle 1.
  - erewrite bind_returned by (unfold lift; rewrite Hkey; reflexivity).
    cbv zeta.
    erewrite bind_returned by (eapply getContactByEmail_not_ok; eassumption).
    cbn [Js.get_opt Js.get Js.truthy].
    unfold HubSpot.createContact.
    erewrite try_catch_returned; [reflexivity|].
    erewrite bind_returned by (apply fetchWithRetry_resolved; exact Hf2).
    rewrite Hok2. cbn [negb]. unfold bind, lift, ret. rewrite Hjson, Hmsg.
    reflexivity.
  - eexists. split; [reflexivity|]. split; trace_simpl.
    + rewrite <- app_assoc. reflexivity.
    + reflexivity.
Qed.

(** ** The contact store *)

Section AgainstTheStore.
Variable coerced_gt_zero : value -> bool.

Local Abbreviation getContactByEmail := (HubSpot.getContactByEmail Crm.fetch coerced_gt_zero).
Local Abbreviation syncContactToHubSpot :=
  (HubSpot.syncContactToHubSpot Crm.fetch coerced_gt_zero).

(** What the lookup hands back never has a [vid]: the store names a
    contact by [id]. *)
Lemma lookup_has_no_vid email apiKey (st : State Crm.Store) :
  exists found,
    getContactByEmail email apiKey st
    = (Returned found,
       mkState (world st) (trace st ++ [Invoke 1; Fetch (SearchContacts apiKey email)]))
    /\ Js.get_opt found "vid" = VUndefined.
Proof.
  unfold HubSpot.getContactByEmail.
  destruct (Crm.newest (filter (Crm.has_email email) (Crm.contacts (world st))))
    as [c|] eqn:Hnew.
  - exists (Crm.render c). split; [|reflexivity].
    erewrite try_catch_returned; [reflexivity|].
    erewrite bind_returned
      by (apply fetchWithRetry_resolved; cbn [Crm.fetch]; rewrite Hnew; reflexivity).
    reflexivity.
  - exists VNull. split; [|reflexivity].
    erewrite try_catch_returned; [reflexivity|].
    erewrite bind_returned
      by (apply fetchWithRetry_resolved; cbn [Crm.fetch]; rewrite Hnew; reflexivity).
    reflexivity.
Qed.

(** So every sync, first or not, issues a search and then a create, and
    the store gains a contact: no PATCH is ever sent. *)
Lemma sync_always_creates apiKey contactData (st : State Crm.Store) :
  JsString.is_empty apiKey = false ->
  let properties := HubSpot.flat_object (HubSpot.contact_properties contactData) in
  let s := world st in
  syncContactToHubSpot (Some apiKey) contactData st
  = (Returned (HubSpot.succeeded_vid (VNum (Crm.nextId s))),
     mkState (Crm.mkStore (Crm.contacts s ++ [Crm.mkContact (Crm.nextId s) properties])
                          (Crm.nextId s + 1))
             (trace st ++ [ Invoke 1; Fetch (SearchContacts apiKey (HubSpot.email contactData));
                            Invoke 1; Fetch (PostContact apiKey properties) ])).
Proof.
  intros Hkey properties s.
  destruct (lookup_has_no_vid (HubSpot.email contactData) apiKey st) as (found & Hlook & Hvid).
  unfold HubSpot.syncContactToHubSpot.
  erewrite try_catch_returned; [reflexivity|].
  erewrite bind_returned
    by (unfold lift, HubSpot.getHubSpotApiKey; rewrite Hkey; reflexivity).
  cbv zeta. erewrite bind_returned by exact Hlook.
  rewrite Hvid. cbn [Js.truthy].
  unfold HubSpot.createContact.
  erewrite try_catch_returned; [reflexivity|].
  erewrite bind_returned by (apply fetchWithRetry_resolved; reflexivity).
  cbn [trace world]. rewrite <- app_assoc. reflexivity.
Qed.

End AgainstTheStore.

(** ** The scenarios, evaluated *)

(** C1, on the code: two submissions of the same contact in a row against
    an empty store.  The second lookup finds the contact created by the
    first, but reads its [vid], which the search result does not have, so a
    second create is sent: the store ends with two contacts for the one
    email, and the second result carries a new identifier. *)
Theorem C1_second_sync_creates_again :
  let '(r1, r2, st) := Scenario.sync_twice in
  r1 = Returned (HubSpot.succeeded_vid (VNum 1))
  /\ r2 = Returned (HubSpot.succeeded_vid (VNum 2))
  /\ network_calls (trace st)
     = [ SearchContacts Scenario.key "jane@example.com";
         PostContact Scenario.key Scenario.jane_properties;
         SearchContacts Scenario.key "jane@example.com";
         PostContact Scenario.key Scenario.jane_properties ]
  /\ map Crm.id (filter (Crm.has_email "jane@example.com") (Crm.contacts (world st)))
     = [1; 2].
Proof. vm_compute. repeat split. Qed.

(** The same defect on the answers of the test "should update an existing
    contact", which expects a result with [vid] 67890: the existing contact
    is not recognised, a create is sent instead of a PATCH, and the result
    carries no identifier. *)
Lemma existing_contact_is_created_again :
  let (r, st) := Scenario.sync Scenario.existing_contact in
  r = Returned (HubSpot.succeeded_vid VUndefined)
  /\ network_calls (trace st)
     = [ SearchContacts Scenario.key "jane@example.com";
         PostContact Scenario.key Scenario.jane_properties ].
Proof. vm_compute. repeat split. Qed.

(** C2, on the code: the remote answers 429, 429, then 200.  [fetch]
    fulfils with the 429 response, so nothing is classified or retried: the
    lookup takes the first answer as "no contact", the create takes the
    second as its failure, and no backoff wait happens. *)
Theorem C2_http_429_is_not_retried :
  let (r, st) := Scenario.sync Scenario.rate_limited_twice in
  r = Returned (HubSpot.failed (VStr "You have reached your secondly limit."))
  /\ waits (trace st) = []
  /\ invocations (trace st) = 2%nat
  /\ network_calls (trace st)
     = [ SearchContacts Scenario.key "jane@example.com";
         PostContact Scenario.key Scenario.jane_properties ].
Proof. vm_compute. repeat split. Qed.

(** What the executor does when the 429 reaches it as a rejection: two
    waits, of 2000ms and 4000ms, and the sync succeeds. *)
Lemma thrown_429_is_retried :
  let (r, st) := Scenario.sync Scenario.rate_limit_thrown_twice in
  Retry.isRetryableError "HTTP 429 Too Many Requests" = true
  /\ r = Returned (HubSpot.succeeded_vid (VNum 12345))
  /\ waits (trace st) = [2000; 4000].
Proof. vm_compute. repeat split. Qed.

(** C8, on the code: every call is answered 200 with the body [{}].  The
    create response has no [id], and the result is a success whose [vid] is
    [undefined]. *)
Theorem C8_create_without_id_reports_success :
  fst (Scenario.sync Scenario.empty_bodies)
  = Returned (HubSpot.mkResult true VUndefined VUndefined VUndefined).
Proof. vm_compute. reflexivity. Qed.

(** C3, on the code: the remote answers every call 401, with the message
    "Authentication credentials not found.".  [fetch] fulfils with the 401
    response, so the sync does not fail at the first call: the lookup takes
    the answer as "no contact" and a create follows.  The create's 401 gives
    the failure, after two network calls, and its error is the remote's
    message, in which "401" does not occur: the rejected credential cannot
    be told from any other refusal. *)
Theorem C3_unauthorized_is_not_recognised :
  let (r, st) := Scenario.sync Scenario.unauthorized_always in
  r = Returned (HubSpot.failed (VStr "Authentication credentials not found."))
  /\ value_includes "401" (VStr "Authentication credentials not found.") = false
  /\ network_calls (trace st)
     = [ SearchContacts Scenario.key "jane@example.com";
         PostContact Scenario.key Scenario.jane_properties ]
  /\ invocations (trace st) = 2%nat
  /\ waits (trace st) = [].
Proof. vm_compute. repeat split. Qed.

(** A 401 on the first call alone does not even make the sync fail. *)
Lemma unauthorized_once_still_succeeds :
  fst (Scenario.sync Scenario.unauthorized_once)
  = Returned (HubSpot.succeeded_vid (VNum 12345)).
Proof. vm_compute. reflexivity. Qed.

(** C5 as stated fails for [maxAttempts = 0]: the operation that rejects
    with ['400 Bad Request'] is not invoked at all, and the error thrown is
    the fallback one. *)
Lemma C5_counterexample :
  let out := Retry.retryWithBackoff (run_op Scenario.bad_request)
                                    (Retry.mkOptions (Some 0) None None)
                                    (mkState 0%nat []) in
  Retry.isRetryableError "400 Bad Request" = false
  /\ out = (Threw (ThrownError "Unknown error in retryWithBackoff"), mkState 0%nat [])
  /\ ~ (fst out = Threw (ThrownError "400 Bad Request")
        /\ invocations (trace (snd out)) = 1%nat).
Proof.
  vm_compute. repeat split.
  intros (H & _). discriminate H.
Qed.


(** ** Instances *)

Lemma C10_witness :
  Retry.config_maxAttempts (Retry.mkOptions (Some 0) None None) <= 0
  /\ Retry.retryWithBackoff (run_op Scenario.always_refused)
                            (Retry.mkOptions (Some 0) None None) (mkState 0%nat [])
     = (Threw (ThrownError "Unknown error in retryWithBackoff"), mkState 0%nat []).
Proof.
  assert (H : Retry.config_maxAttempts (Retry.mkOptions (Some 0) None None) <= 0)
    by (vm_compute; discriminate).
  split; [exact H|].
  exact (@C10_no_attempts_fallback_error nat Z (run_op Scenario.always_refused)
           (Retry.mkOptions (Some 0) None None) (mkState 0%nat []) H).
Defined.

Lemma C5_witness :
  1 <= Retry.config_maxAttempts Retry.no_options
  /\ exists tr,
      Retry.retryWithBackoff (run_op Scenario.bad_request) Retry.no_options
                             (mkState 0%nat [])
      = (Threw (ThrownError "400 Bad Request"), mkState 1%nat tr)
      /\ invocations tr = 1%nat
      /\ waits tr = [].
Proof.
  assert (H : 1 <= Retry.config_maxAttempts Retry.no_options)
    by (vm_compute; discriminate).
  split; [exact H|].
  exact (@C5_non_retryable_short_circuit nat Z Scenario.bad_request Retry.no_options
           (mkState 0%nat []) "400 Bad Request" 1%nat H eq_refl eq_refl).
Defined.

Lemma C4_witness :
  exists m3 tr,
    fst (Scenario.always_refused 2%nat) = Rejected (ThrownError m3)
    /\ Retry.retryWithBackoff (run_op Scenario.always_refused)
                              (Retry.mkOptions (Some 3) None None) (mkState 0%nat [])
       = (Threw (ThrownError m3), mkState 3%nat tr)
    /\ invocations tr = 3%nat
    /\ waits tr = [2000; 4000].
Proof.
  refine (@C4_retry_exhaustion nat Z Scenario.always_refused
            (Retry.mkOptions (Some 3) None None) (mkState 0%nat []) eq_refl _).
  intros w. exists "ECONNREFUSED". split; reflexivity.
Defined.

Lemma C6_witness :
  credential_absent None
  /\ exists r st',
      HubSpot.syncContactToHubSpot Scripted.fetch Scripted.no_coercion None Scenario.jane
        (Scripted.start Scenario.empty_bodies) = (Returned r, st')
      /\ HubSpot.success r = false
      /\ value_includes "HUBSPOT_API_KEY" (HubSpot.error r) = true
      /\ world st' = Scenario.empty_bodies
      /\ network_calls (trace st') = []
      /\ invocations (trace st') = 0%nat.
Proof.
  assert (H : credential_absent None) by (left; reflexivity).
  split; [exact H|].
  exact (@C6_missing_credential Scripted.Mock Scripted.fetch Scripted.no_coercion None
           Scenario.jane (Scripted.start Scenario.empty_bodies) H).
Defined.


(* ================================================================= *)
(** * Further properties of the executor *)

Lemma schedule_length d a n : List.length (schedule d a n) = n.
Proof. revert a. induction n as [|n IH]; intros a; cbn; [reflexivity|]. now rewrite IH. Qed.

(** The [i]-th wait is [initialDelayMs * 2^i] (pure doubling, no jitter). *)
Lemma schedule_nth d n : forall a i,
  (i < n)%nat -> nth i (schedule d a n) 0 = d * 2 ^ (a - 1 + Z.of_nat i).
Proof.
  induction n as [|n IH]; intros a i Hi; [lia|].
  destruct i as [|i]; cbn [schedule nth].
  - f_equal. f_equal. lia.
  - rewrite IH by lia. f_equal. f_equal. lia.
Qed.

Lemma run_op_quiet {W T} (op : W -> Settle T * W) : quiet [] (run_op op).
Proof.
  intros st. unfold run_op. destruct (op (world st)) as [o w].
  cbn. rewrite app_nil_r. repeat split.
Qed.

Lemma repeat_snoc {A} (x : A) (k : nat) : (repeat x k ++ [x])%list = repeat x (S k).
Proof. induction k as [|k IH]; cbn; [reflexivity|]. now rewrite IH. Qed.

Section LoopSummary.
Context {W T : Type}.
Variable fn : State W -> Settle T * State W.
Variables maxAttempts timeoutMs initialDelayMs : Z.
Variable issued : list Request.
Hypothesis fn_quiet : quiet issued fn.

Local Abbreviation loop := (Retry.loop fn maxAttempts timeoutMs initialDelayMs).

Lemma loop_S remaining attempt last st :
  loop (S remaining) attempt last st
  = match Retry.iteration fn maxAttempts timeoutMs initialDelayMs attempt st with
    | inl done => done
    | inr (lastError, st') => loop remaining (attempt + 1) (Some lastError) st'
    end.
Proof. reflexivity. Qed.

Ltac after_attempt Hinv Hw Hnet :=
  cbn [fst snd]; trace_simpl; rewrite ?Hinv, ?Hw, ?Hnet;
  trace_simpl; cbn [repeat List.concat schedule]; rewrite ?app_nil_r.

(** What a run of the loop adds to the trace, when it is entered with the
    iterations that really remain ([remaining = maxAttempts - attempt + 1]):
    [k] invocations, at least one and at most [remaining], each with the
    network calls of the operation; the [k - 1] waits of the schedule in
    between; a thrown value that is an [Error], and that is retryable only
    if every iteration was used. *)
Lemma loop_summary : forall remaining attempt last st,
  Z.of_nat (S remaining) = maxAttempts - attempt + 1 ->
  let out := loop (S remaining) attempt last st in
  exists k,
    (1 <= k <= S remaining)%nat
    /\ invocations (trace (snd out)) = (invocations (trace st) + k)%nat
    /\ waits (trace (snd out))
       = (waits (trace st) ++ schedule initialDelayMs attempt (k - 1))%list
    /\ network_calls (trace (snd out))
       = (network_calls (trace st) ++ List.concat (repeat issued k))%list
    /\ (forall e, fst out = Threw e ->
                  exists m, e = ThrownError m
                            /\ (Retry.isRetryableError m = true -> k = S remaining)).
Proof.
  induction remaining as [|n IH]; intros attempt last st Hrem out; subst out;
    rewrite loop_S; unfold Retry.iteration;
    destruct (fn_quiet (emit (Invoke attempt) st)) as (Hinv & Hw & Hnet);
    destruct (fn (emit (Invoke attempt) st)) as [o st1]; cbn [snd] in Hinv, Hw, Hnet;
    revert Hinv Hw Hnet; trace_simpl; intros Hinv Hw Hnet.
  - (* the last iteration *)
    assert (Hlast : (attempt =? maxAttempts) = true) by (apply Z.eqb_eq; lia).
    destruct (Retry.race timeoutMs o) as [r|e]; cbv zeta.
    + exists 1%nat. destruct (1 <? attempt); after_attempt Hinv Hw Hnet;
        repeat split; try lia; discriminate.
    + rewrite Hlast. cbn [orb]. exists 1%nat. after_attempt Hinv Hw Hnet.
      repeat split; try lia.
      intros e' He'. injection He' as <-. eexists. split; [reflexivity|]. reflexivity.
  - (* an iteration with others to follow *)
    assert (Hlast : (attempt =? maxAttempts) = false) by (apply Z.eqb_neq; lia).
    destruct (Retry.race timeoutMs o) as [r|e]; cbv zeta.
    + exists 1%nat. destruct (1 <? attempt); after_attempt Hinv Hw Hnet;
        repeat split; try lia; discriminate.
    + rewrite Hlast. cbn [orb].
      destruct (Retry.isRetryableError (Retry.as_error e)) eqn:Hretry; cbn [negb].
      * (* wait, then go round again *)
        match goal with
        | |- context [Retry.loop _ _ _ _ (S n) (attempt + 1) ?l ?s] =>
            pose proof (IH (attempt + 1) l s ltac:(lia)) as IH';
            remember (Retry.loop fn maxAttempts timeoutMs initialDelayMs
                                 (S n) (attempt + 1) l s) as out' eqn:Hout
        end.
        cbv zeta in IH'. destruct IH' as (k & Hk & Hinv' & Hw' & Hnet' & Hthrow).
        exists (S k). split; [lia|].
        rewrite Hinv', Hw', Hnet'. after_attempt Hinv Hw Hnet.
        replace (S k - 1)%nat with (S (k - 1)) by lia. cbn [schedule].
        rewrite <- !app_assoc. cbn [app].
        repeat split; try lia.
        intros e' He'. destruct (Hthrow e' He') as (m & -> & Hm).
        exists m. split; [reflexivity|]. intros R. rewrite (Hm R). reflexivity.
      * (* not retryable: rethrow *)
        exists 1%nat. after_attempt Hinv Hw Hnet.
        repeat split; try lia.
        intros e' He'. injection He' as <-. eexists. split; [reflexivity|].
        intros R. congruence.
Qed.

End LoopSummary.

(** X1: an operation whose first attempt fulfils is invoked once; its result is
    returned at once, with no wait and no console line, whatever
    [maxAttempts >= 1] is. *)
Theorem first_attempt_success
  {W T} (op : W -> Settle T * W) (options : Retry.RetryOptions) (st : State W)
  (r : T) (w' : W) :
  1 <= Retry.config_maxAttempts options ->
  op (world st) = (Resolved r, w') ->
  Retry.retryWithBackoff (run_op op) options st
  = (Returned r, mkState w' (trace st ++ [Invoke 1])).
Proof.
  intros Hmax Hop. unfold Retry.retryWithBackoff.
  destruct (Z.to_nat (Retry.config_maxAttempts options)) as [|n] eqn:Hn; [lia|].
  erewrite loop_fulfilled by (apply run_op_eq; exact Hop).
  reflexivity.
Qed.

(** X2: whatever the operation does, with [maxAttempts >= 1] it is invoked at
    least once and at most [maxAttempts] times, and the waits are exactly
    the backoff schedule between consecutive invocations: one fewer than
    the invocations, [initialDelayMs], twice that, four times that, ...;
    no wait follows the last attempt. *)
Theorem attempts_bounded_waits_scheduled
  {W T} (op : W -> Settle T * W) (options : Retry.RetryOptions) (st : State W) :
  1 <= Retry.config_maxAttempts options ->
  let out := Retry.retryWithBackoff (run_op op) options st in
  exists k,
    (1 <= k <= Z.to_nat (Retry.config_maxAttempts options))%nat
    /\ invocations (trace (snd out)) = (invocations (trace st) + k)%nat
    /\ waits (trace (snd out))
       = (waits (trace st)
          ++ schedule (Retry.config_initialDelayMs options) 1 (k - 1))%list.
Proof.
  intros Hmax out. subst out. unfold Retry.retryWithBackoff.
  destruct (Z.to_nat (Retry.config_maxAttempts options)) as [|n] eqn:Hn; [lia|].
  destruct (@loop_summary W T (run_op op) (Retry.config_maxAttempts options)
              (Retry.config_timeoutMs options) (Retry.config_initialDelayMs options)
              [] (run_op_quiet op) n 1 None st)
    as (k & Hk & Hinv & Hw & _); [lia|].
  exists k. auto.
Qed.


(** X4: a retryable error leaves [retryWithBackoff] only when the attempts are
    used up: if the error thrown is retryable, the operation was invoked
    [maxAttempts] times. *)
Theorem retryable_error_means_exhausted
  {W T} (op : W -> Settle T * W) (options : Retry.RetryOptions) (st : State W)
  (m : string) :
  1 <= Retry.config_maxAttempts options ->
  let out := Retry.retryWithBackoff (run_op op) options st in
  fst out = Threw (ThrownError m) ->
  Retry.isRetryableError m = true ->
  invocations (trace (snd out))
  = (invocations (trace st) + Z.to_nat (Retry.config_maxAttempts options))%nat.
Proof.
  intros Hmax out. subst out. unfold Retry.retryWithBackoff.
  destruct (Z.to_nat (Retry.config_maxAttempts options)) as [|n] eqn:Hn; [lia|].
  destruct (@loop_summary W T (run_op op) (Retry.config_maxAttempts options)
              (Retry.config_timeoutMs options) (Retry.config_initialDelayMs options)
              [] (run_op_quiet op) n 1 None st)
    as (k & Hk & Hinv & _ & _ & Hthrow); [lia|].
  intros Hout Hretry. destruct (Hthrow _ Hout) as (m' & Hm' & Hex).
  injection Hm' as <-. rewrite Hinv, (Hex Hretry). reflexivity.
Qed.

(** When every attempt loses its race or rejects with a retryable error,
    all the iterations that remain are used and the loop throws the error
    of the last one. *)
Lemma loop_exhausts_by_race {W T} (op : W -> Settle T * W)
      (maxAttempts timeoutMs initialDelayMs : Z) (P : string -> Prop) :
  (forall w, exists e, Retry.race timeoutMs (fst (op w)) = inr e
                       /\ Retry.isRetryableError (Retry.as_error e) = true
                       /\ P (Retry.as_error e)) ->
  forall remaining attempt last st,
    Z.of_nat (S remaining) = maxAttempts - attempt + 1 ->
    exists m st',
      Retry.loop (run_op op) maxAttempts timeoutMs initialDelayMs
                 (S remaining) attempt last st
      = (Threw (ThrownError m), st')
      /\ P m
      /\ invocations (trace st') = (invocations (trace st) + S remaining)%nat.
Proof.
  intros Hall. induction remaining as [|n IH]; intros attempt last st Hrem;
    destruct (Hall (world st)) as (e & Hrace & Hretry & HP).
  - exists (Retry.as_error e). eexists. split; [|split; [exact HP|]].
    + eapply loop_gives_up.
      * apply run_op_eq. cbn [emit world]. apply surjective_pairing.
      * exact Hrace.
      * replace attempt with maxAttempts by lia. rewrite Z.eqb_refl. reflexivity.
    + trace_simpl. lia.
  - erewrite loop_retries; cycle 1.
    + apply run_op_eq. cbn [emit world]. apply surjective_pairing.
    + exact Hrace.
    + lia.
    + exact Hretry.
    + edestruct IH as (m' & st' & E & HP' & Hinv); [|rewrite E].
      * lia.
      * exists m', st'. split; [reflexivity|]. split; [exact HP'|].
        rewrite Hinv. trace_simpl. lia.
Qed.

(** X5: an operation that never settles within [timeoutMs] fails every attempt
    with the timeout error, each counted as one attempt and retried like
    any retryable failure: it is invoked [maxAttempts] times, with the
    backoff waits of the schedule in between, and the error thrown is
    ["Request timeout after <timeoutMs>ms"].  ([timeoutMs] is taken within
    the safe integers, where its decimal text is the one [JsString.of_Z]
    gives.) *)
Theorem never_settling_times_out
  {W T} (op : W -> Settle T * W) (options : Retry.RetryOptions) (st : State W) :
  1 <= Retry.config_maxAttempts options ->
  JsString.safe_integer (Retry.config_timeoutMs options) ->
  (forall w, fst (op w) = Unsettled) ->
  exists st',
    Retry.retryWithBackoff (run_op op) options st
    = (Threw (ThrownError ("Request timeout after "
                           ++ JsString.of_Z (Retry.config_timeoutMs options) ++ "ms")),
       st')
    /\ invocations (trace st')
       = (invocations (trace st) + Z.to_nat (Retry.config_maxAttempts options))%nat
    /\ waits (trace st')
       = (waits (trace st)
          ++ schedule (Retry.config_initialDelayMs options) 1
                      (Z.to_nat (Retry.config_maxAttempts options) - 1))%list.
Proof.
  intros Hmax _ Hnever. unfold Retry.retryWithBackoff.
  destruct (Z.to_nat (Retry.config_maxAttempts options)) as [|n] eqn:Hn; [lia|].
  destruct (@loop_exhausts_by_race W T op (Retry.config_maxAttempts options)
              (Retry.config_timeoutMs options) (Retry.config_initialDelayMs options)
              (fun m => m = Retry.timeout_message (Retry.config_timeoutMs options)))
    with (remaining := n) (attempt := 1) (last := @None string) (st := st)
    as (m & st' & E & -> & Hinv).
  - intros w. rewrite Hnever. eexists. split; [reflexivity|].
    split; [apply timeout_is_retryable|reflexivity].
  - lia.
  - destruct (@loop_summary W T (run_op op) (Retry.config_maxAttempts options)
                (Retry.config_timeoutMs options) (Retry.config_initialDelayMs options)
                [] (run_op_quiet op) n 1 None st)
      as (k & Hk & Hinv' & Hw & _); [lia|].
    rewrite E in Hinv', Hw. cbn [snd] in Hinv', Hw.
    assert (k = S n) by lia. subst k.
    exists st'. split; [exact E|]. split; [exact Hinv|exact Hw].
Qed.

(** X6: a transient failure is recovered from: when the first attempt fails
    with a retryable error and the second fulfils, the result of the second
    is returned after two invocations and one wait of [initialDelayMs]. *)
Theorem recovers_after_transient_failure
  {W T} (op : W -> Settle T * W) (options : Retry.RetryOptions) (st : State W)
  (e : thrown) (w1 w2 : W) (r : T) :
  2 <= Retry.config_maxAttempts options ->
  op (world st) = (Rejected e, w1) ->
  Retry.isRetryableError (Retry.as_error e) = true ->
  op w1 = (Resolved r, w2) ->
  exists tr,
    Retry.retryWithBackoff (run_op op) options st = (Returned r, mkState w2 tr)
    /\ invocations tr = (invocations (trace st) + 2)%nat
    /\ waits tr = (waits (trace st) ++ [Retry.config_initialDelayMs options])%list.
Proof.
  intros Hmax Hop1 Hretry Hop2. unfold Retry.retryWithBackoff.
  destruct (Z.to_nat (Retry.config_maxAttempts options)) as [|[|n]] eqn:Hn; try lia.
  erewrite loop_retries with (e := e); cycle 1.
  - apply run_op_eq. exact Hop1.
  - reflexivity.
  - lia.
  - exact Hretry.
  - erewrite loop_fulfilled by (apply run_op_eq; exact Hop2).
    cbn [Z.ltb Z.add Z.compare Pos.compare Pos.compare_cont Pos.add].
    unfold emit. cbn [world trace]. eexists. split; [reflexivity|].
    split; trace_simpl.
    + lia.
    + change (2 ^ (1 - 1)) with 1. rewrite Z.mul_1_r. reflexivity.
Qed.

(** ** The classification of errors *)

Lemma toLowerCase_app (a b : string) :
  JsString.toLowerCase (a ++ b) = JsString.toLowerCase a ++ JsString.toLowerCase b.
Proof. induction a as [|c a IH]; cbn; [reflexivity|]. now rewrite IH. Qed.

Lemma prefix_app (p s b : string) :
  String.prefix p s = true -> String.prefix p (s ++ b) = true.
Proof.
  revert s. induction p as [|c p IH]; intros s H;
    [destruct (s ++ b); reflexivity|].
  destruct s as [|c' s]; [discriminate|]. cbn in *.
  destruct (Ascii.ascii_dec c c'); [apply IH; exact H|discriminate].
Qed.

Lemma includes_app_r (p s b : string) :
  JsString.includes p s = true -> JsString.includes p (s ++ b) = true.
Proof.
  induction s as [|c s IH]; intros H.
  - cbn [JsString.includes] in H.
    destruct (String.prefix p "") eqn:Hp; [|discriminate].
    apply (prefix_app _ _ b) in Hp. cbn [append] in *.
    destruct b; cbn [JsString.includes]; rewrite Hp; reflexivity.
  - cbn [JsString.includes append] in *.
    destruct (String.prefix p (String c s)) eqn:Hp.
    + apply (prefix_app _ _ b) in Hp. cbn [append] in Hp. rewrite Hp. reflexivity.
    + destruct (String.prefix p (String c (s ++ b))); [reflexivity|]. apply IH, H.
Qed.

Lemma includes_app_l (p a s : string) :
  JsString.includes p s = true -> JsString.includes p (a ++ s) = true.
Proof.
  intros H. induction a as [|c a IH]; [exact H|].
  cbn [append JsString.includes].
  destruct (String.prefix p (String c (a ++ s))); [reflexivity|exact IH].
Qed.

(** X7: a message is retryable as soon as some part of it is, in any letter
    case: a retryable pattern anywhere in the text decides, whatever else
    the text says (a 400 whose text also holds "500", as in "5000ms", is
    retried). *)
Theorem retryable_anywhere (before message after : string) :
  Retry.isRetryableError message = true ->
  Retry.isRetryableError (before ++ message ++ after) = true.
Proof.
  unfold Retry.isRetryableError. intros H.
  apply existsb_exists in H. destruct H as (p & Hin & Hp).
  apply existsb_exists. exists p. split; [exact Hin|].
  rewrite !toLowerCase_app. apply includes_app_l, includes_app_r, Hp.
Qed.

(* ================================================================= *)
(** * Further properties of the client *)

(** ** What a call costs *)

Lemma fetch_quiet {W} (fetch : Request -> W -> Settle Response * W) (req : Request) :
  quiet [req] (fun st => let (o, w) := fetch req (world st) in
                         (o, mkState w (trace st ++ [Fetch req]))).
Proof.
  intros st. destruct (fetch req (world st)) as [o w]. cbn [snd trace].
  rewrite invocations_app, waits_app, network_calls_app. cbn.
  rewrite Nat.add_0_r, app_nil_r. repeat split.
Qed.

Lemma concat_repeat_one {A} (x : A) (k : nat) : List.concat (repeat [x] k) = repeat x k.
Proof. induction k as [|k IH]; cbn; [reflexivity|]. now rewrite IH. Qed.

Lemma fetchWithRetry_sendings
  {W} (fetch : Request -> W -> Settle Response * W) (req : Request) (st : State W) :
  let out := HubSpot.fetchWithRetry fetch req Retry.no_options st in
  exists k,
    (1 <= k <= 3)%nat
    /\ network_calls (trace (snd out)) = (network_calls (trace st) ++ repeat req k)%list
    /\ invocations (trace (snd out)) = (invocations (trace st) + k)%nat
    /\ waits (trace (snd out)) = (waits (trace st) ++ firstn (k - 1) [2000; 4000])%list.
Proof.
  intros out. subst out. unfold HubSpot.fetchWithRetry, Retry.retryWithBackoff.
  change (Z.to_nat (Retry.config_maxAttempts Retry.no_options)) with 3%nat.
  destruct (@loop_summary W Response _ (Retry.config_maxAttempts Retry.no_options)
              (Retry.config_timeoutMs Retry.no_options)
              (Retry.config_initialDelayMs Retry.no_options)
              [req] (fetch_quiet fetch req) 2%nat 1 None st)
    as (k & Hk & Hinv & Hw & Hnet & _); [reflexivity|].
  exists k. rewrite Hinv, Hw, Hnet, concat_repeat_one.
  split; [exact Hk|]. split; [reflexivity|]. split; [reflexivity|].
  destruct k as [|[|[|[|k]]]]; try lia; reflexivity.
Qed.

(** X8: one [fetchWithRetry] of the client (default options) sends its request
    at least once and at most three times, and nothing else; it waits
    2000ms before a second sending and 4000ms before a third, so never
    more than 6000ms in all, and never the 8000ms of a fourth step. *)
Theorem fetchWithRetry_at_most_three
  {W} (fetch : Request -> W -> Settle Response * W) (req : Request) (st : State W) :
  let out := HubSpot.fetchWithRetry fetch req Retry.no_options st in
  exists k,
    (1 <= k <= 3)%nat
    /\ network_calls (trace (snd out)) = (network_calls (trace st) ++ repeat req k)%list
    /\ invocations (trace (snd out)) = (invocations (trace st) + k)%nat
    /\ waits (trace (snd out)) = (waits (trace st) ++ firstn (k - 1) [2000; 4000])%list.
Proof.
  intros out. subst out. unfold HubSpot.fetchWithRetry, Retry.retryWithBackoff.
  change (Z.to_nat (Retry.config_maxAttempts Retry.no_options)) with 3%nat.
  destruct (@loop_summary W Response _ (Retry.config_maxAttempts Retry.no_options)
              (Retry.config_timeoutMs Retry.no_options)
              (Retry.config_initialDelayMs Retry.no_options)
              [req] (fetch_quiet fetch req) 2%nat 1 None st)
    as (k & Hk & Hinv & Hw & Hnet & _); [reflexivity|].
  exists k. rewrite Hinv, Hw, Hnet, concat_repeat_one.
  split; [exact Hk|]. split; [reflexivity|]. split; [reflexivity|].
  destruct k as [|[|[|[|k]]]]; try lia; reflexivity.
Qed.

Lemma total_app (a b : list Z) : total (a ++ b) = total a + total b.
Proof. unfold total. induction a as [|x a IH]; cbn; [reflexivity|]. rewrite IH. lia. Qed.

Section Footprints.
Context {W : Type}.
Variable key : string.

Lemma footprint_ret {A} (a : A) : footprint (W := W) 0 0 key (ret a).
Proof.
  intros st. exists [], []. cbn. rewrite !app_nil_r.
  repeat split; auto; reflexivity.
Qed.

Lemma footprint_lift {A} (c : Completion A) : footprint (W := W) 0 0 key (lift c).
Proof.
  intros st. exists [], []. cbn. rewrite !app_nil_r.
  repeat split; auto; reflexivity.
Qed.

Lemma footprint_handler {A} label e (a : A) :
  footprint (W := W) 0 0 key (bind (console_error label e) (fun _ => ret a)).
Proof.
  intros st. exists [], []. cbn. rewrite network_calls_app, waits_app. cbn.
  repeat split; auto; reflexivity.
Qed.

Lemma footprint_weaken {A} n b n' b' (m : M W A) :
  (n <= n')%nat -> b <= b' -> footprint n b key m -> footprint n' b' key m.
Proof.
  intros Hn Hb Hm st. destruct (Hm st) as (sent & delays & ? & ? & ? & ? & ? & ?).
  exists sent, delays. repeat split; auto; lia.
Qed.

Lemma footprint_bind {A B} n1 b1 n2 b2 (m : M W A) (k : A -> M W B) :
  0 <= b2 ->
  footprint n1 b1 key m ->
  (forall a, footprint n2 b2 key (k a)) ->
  footprint (n1 + n2) (b1 + b2) key (bind m k).
Proof.
  intros Hb2 Hm Hk st. unfold bind.
  destruct (Hm st) as (s1 & d1 & Hs1 & Hd1 & Hl1 & Hc1 & Hp1 & Ht1).
  destruct (m st) as [[a|e] st1]; cbn [snd] in *.
  - destruct (Hk a st1) as (s2 & d2 & Hs2 & Hd2 & Hl2 & Hc2 & Hp2 & Ht2).
    exists (s1 ++ s2)%list, (d1 ++ d2)%list.
    rewrite Hs2, Hd2, Hs1, Hd1, <- !app_assoc, length_app, total_app.
    repeat split; try lia; apply Forall_app; auto.
  - exists s1, d1. repeat split; auto; lia.
Qed.

Lemma footprint_try_catch {A} n1 b1 n2 b2 (m : M W A) handler :
  0 <= b2 ->
  footprint n1 b1 key m ->
  (forall e, footprint n2 b2 key (handler e)) ->
  footprint (n1 + n2) (b1 + b2) key (try_catch m handler).
Proof.
  intros Hb2 Hm Hh st. unfold try_catch.
  destruct (Hm st) as (s1 & d1 & Hs1 & Hd1 & Hl1 & Hc1 & Hp1 & Ht1).
  destruct (m st) as [[a|e] st1]; cbn [snd] in *.
  - exists s1, d1. repeat split; auto; lia.
  - destruct (Hh e st1) as (s2 & d2 & Hs2 & Hd2 & Hl2 & Hc2 & Hp2 & Ht2).
    exists (s1 ++ s2)%list, (d1 ++ d2)%list.
    rewrite Hs2, Hd2, Hs1, Hd1, <- !app_assoc, length_app, total_app.
    repeat split; try lia; apply Forall_app; auto.
Qed.

Variable fetch : Request -> W -> Settle Response * W.
Variable coerced_gt_zero : value -> bool.

Lemma footprint_fetchWithRetry req :
  credential_of req = key ->
  footprint 3 6000 key (HubSpot.fetchWithRetry fetch req Retry.no_options).
Proof.
  intros Hkey st.
  destruct (fetchWithRetry_sendings fetch req st) as (k & Hk & Hnet & _ & Hw).
  exists (repeat req k), (firstn (k - 1) [2000; 4000]).
  split; [exact Hnet|]. split; [exact Hw|].
  rewrite repeat_length. split; [lia|].
  split; [apply Forall_forall; intros x Hx; apply repeat_spec in Hx; now subst x|].
  destruct k as [|[|[|[|k]]]]; try lia; cbn; (split; [repeat constructor; lia|lia]).
Qed.

End Footprints.

Section ClientFootprints.
Context {W : Type}.
Variable fetch : Request -> W -> Settle Response * W.
Variable coerced_gt_zero : value -> bool.

Ltac pure_steps :=
  repeat first
    [ apply footprint_ret
    | apply footprint_lift
    | apply (@footprint_bind W _ _ _ 0 0 0 0); [lia| |intro]
    | match goal with
      | |- footprint _ _ _ (if ?b then _ else _) => destruct b
      end ].

(** A call and what follows it without any other call. *)
Ltac call_then_pure :=
  apply (@footprint_try_catch W _ _ 3 6000 0 0);
  [ lia
  | apply (@footprint_bind W _ _ _ 3 6000 0 0);
    [ lia | apply footprint_fetchWithRetry; reflexivity | intro; pure_steps ]
  | intro; apply footprint_handler ].

Lemma footprint_getContactByEmail email apiKey :
  footprint 3 6000 apiKey (HubSpot.getContactByEmail fetch coerced_gt_zero email apiKey).
Proof. unfold HubSpot.getContactByEmail. call_then_pure. Qed.

Lemma footprint_createContact properties apiKey :
  footprint 3 6000 apiKey (HubSpot.createContact fetch properties apiKey).
Proof. unfold HubSpot.createContact. call_then_pure. Qed.

Lemma footprint_updateContact vid properties apiKey :
  footprint 3 6000 apiKey (HubSpot.updateContact fetch vid properties apiKey).
Proof. unfold HubSpot.updateContact. call_then_pure. Qed.

Lemma key_of_env env apiKey :
  HubSpot.getHubSpotApiKey env = Returned apiKey -> env = Some apiKey.
Proof.
  unfold HubSpot.getHubSpotApiKey. destruct env as [k|]; [|discriminate].
  destruct (JsString.is_empty k); [discriminate|]. congruence.
Qed.

(** A footprint under the credential read from the environment, whatever
    that reading gives. *)
Lemma footprint_with_key {A} n b env (body : string -> M W A) handler :
  0 <= b ->
  (forall apiKey, footprint n b apiKey (body apiKey)) ->
  (forall e, exists a, handler e = bind (console_error (fst a) e) (fun _ => ret (snd a))) ->
  forall st, exists sent delays,
    let out := try_catch (bind (lift (HubSpot.getHubSpotApiKey env)) body) handler st in
    network_calls (trace (snd out)) = (network_calls (trace st) ++ sent)%list
    /\ waits (trace (snd out)) = (waits (trace st) ++ delays)%list
    /\ (List.length sent <= n)%nat
    /\ Forall (fun req => env = Some (credential_of req)) sent
    /\ Forall (fun d => 0 <= d) delays
    /\ total delays <= b.
Proof.
  intros Hb Hbody Hh st.
  destruct (HubSpot.getHubSpotApiKey env) as [apiKey|e] eqn:Hkey.
  - apply key_of_env in Hkey. subst env.
    assert (F : footprint (n + 0) (b + 0) apiKey (try_catch (body apiKey) handler)).
    { apply footprint_try_catch; [lia|apply Hbody|].
      intro e. destruct (Hh e) as ((label & a) & ->). apply footprint_handler. }
    destruct (F st) as (sent & delays & Hs & Hd & Hl & Hc & Hp & Ht).
    exists sent, delays. cbv zeta.
    replace (try_catch (bind (lift (Returned apiKey)) body) handler st)
      with (try_catch (body apiKey) handler st) by reflexivity.
    repeat split; auto; try lia.
    eapply Forall_impl; [|exact Hc]. cbv beta. intros req ->. reflexivity.
  - exists [], []. cbv zeta.
    replace (try_catch (bind (lift (Threw e)) body) handler st)
      with (handler e st) by reflexivity.
    destruct (Hh e) as ((label & a) & ->). cbn.
    rewrite network_calls_app, waits_app. cbn.
    repeat split; auto. lia.
Qed.

(** X9: one sync sends at most six requests (a lookup and a create or update,
    each at most three times) and spends at most 12 seconds in backoff
    waits, whatever the remote does. *)
Theorem sync_cost_bounded env contactData (st : State W) :
  let out := HubSpot.syncContactToHubSpot fetch coerced_gt_zero env contactData st in
  exists sent delays,
    network_calls (trace (snd out)) = (network_calls (trace st) ++ sent)%list
    /\ waits (trace (snd out)) = (waits (trace st) ++ delays)%list
    /\ (List.length sent <= 6)%nat
    /\ total delays <= 12000.
Proof.
  cbv zeta. unfold HubSpot.syncContactToHubSpot.
  edestruct (@footprint_with_key HubSpot.Result 6 12000 env) with (st := st)
    as (sent & delays & Hs & Hd & Hl & _ & _ & Ht); cycle 3.
  - exists sent, delays. cbv zeta in Hs, Hd. rewrite Hs, Hd. auto.
  - lia.
  - intro apiKey. cbv zeta.
    apply (@footprint_bind W _ _ _ 3 6000 3 6000);
      [lia|apply footprint_getContactByEmail|].
    intro existing. destruct (Js.truthy (Js.get_opt existing "vid")).
    + apply footprint_updateContact.
    + apply footprint_createContact.
  - intro e. exists ("HubSpot sync error:", HubSpot.failed (HubSpot.error_text e)).
    reflexivity.
Qed.

(** X10: every request a sync sends carries the credential read from the
    environment, and none is sent when there is none to read. *)
Theorem sync_sends_the_credential env contactData (st : State W) :
  let out := HubSpot.syncContactToHubSpot fetch coerced_gt_zero env contactData st in
  exists sent,
    network_calls (trace (snd out)) = (network_calls (trace st) ++ sent)%list
    /\ Forall (fun req => env = Some (credential_of req)) sent.
Proof.
  cbv zeta. unfold HubSpot.syncContactToHubSpot.
  edestruct (@footprint_with_key HubSpot.Result 6 12000 env) with (st := st)
    as (sent & delays & Hs & _ & _ & Hc & _ & _); cycle 3.
  - exists sent. cbv zeta in Hs. rewrite Hs. auto.
  - lia.
  - intro apiKey. cbv zeta.
    apply (@footprint_bind W _ _ _ 3 6000 3 6000);
      [lia|apply footprint_getContactByEmail|].
    intro existing. destruct (Js.truthy (Js.get_opt existing "vid")).
    + apply footprint_updateContact.
    + apply footprint_createContact.
  - intro e. exists ("HubSpot sync error:", HubSpot.failed (HubSpot.error_text e)).
    reflexivity.
Qed.

(** X11: the other exported operations: add-to-list and create-deal send at
    most three requests and wait at most 6 seconds; log-activity, which
    looks the contact up first, at most six requests and 12 seconds. *)
Theorem auxiliary_costs_bounded env (st : State W) :
  (forall email listId,
      let out := HubSpot.addContactToList fetch env email listId st in
      exists sent delays,
        network_calls (trace (snd out)) = (network_calls (trace st) ++ sent)%list
        /\ waits (trace (snd out)) = (waits (trace st) ++ delays)%list
        /\ (List.length sent <= 3)%nat /\ total delays <= 6000)
  /\ (forall data,
         let out := HubSpot.createHubSpotDeal fetch env data st in
         exists sent delays,
           network_calls (trace (snd out)) = (network_calls (trace st) ++ sent)%list
           /\ waits (trace (snd out)) = (waits (trace st) ++ delays)%list
           /\ (List.length sent <= 3)%nat /\ total delays <= 6000)
  /\ (forall data,
         let out := HubSpot.logActivityToHubSpot fetch coerced_gt_zero env data st in
         exists sent delays,
           network_calls (trace (snd out)) = (network_calls (trace st) ++ sent)%list
           /\ waits (trace (snd out)) = (waits (trace st) ++ delays)%list
           /\ (List.length sent <= 6)%nat /\ total delays <= 12000).
Proof.
  split; [|split].
  - intros email listId. cbv zeta. unfold HubSpot.addContactToList.
    edestruct (@footprint_with_key HubSpot.Result 3 6000 env) with (st := st)
      as (sent & delays & Hs & Hd & Hl & _ & _ & Ht); cycle 3.
    + exists sent, delays. cbv zeta in Hs, Hd. rewrite Hs, Hd. auto.
    + lia.
    + intro apiKey.
      apply (@footprint_bind W _ _ _ 3 6000 0 0);
        [lia|apply footprint_fetchWithRetry; reflexivity|intro; pure_steps].
    + intro e. exists ("Error adding contact to HubSpot list:",
                       HubSpot.failed (HubSpot.error_text e)). reflexivity.
  - intros data. cbv zeta. unfold HubSpot.createHubSpotDeal.
    edestruct (@footprint_with_key HubSpot.Result 3 6000 env) with (st := st)
      as (sent & delays & Hs & Hd & Hl & _ & _ & Ht); cycle 3.
    + exists sent, delays. cbv zeta in Hs, Hd. rewrite Hs, Hd. auto.
    + lia.
    + intro apiKey.
      apply (@footprint_bind W _ _ _ 3 6000 0 0);
        [lia|apply footprint_fetchWithRetry; reflexivity|intro; pure_steps].
    + intro e. exists ("Error creating HubSpot deal:",
                       HubSpot.failed (HubSpot.error_text e)). reflexivity.
  - intros data. cbv zeta. unfold HubSpot.logActivityToHubSpot.
    edestruct (@footprint_with_key HubSpot.Result 6 12000 env) with (st := st)
      as (sent & delays & Hs & Hd & Hl & _ & _ & Ht); cycle 3.
    + exists sent, delays. cbv zeta in Hs, Hd. rewrite Hs, Hd. auto.
    + lia.
    + intro apiKey.
      apply (@footprint_bind W _ _ _ 3 6000 3 6000);
        [lia|apply footprint_getContactByEmail|].
      intro contact. destruct (negb (Js.truthy (Js.get_opt contact "vid"))).
      * apply (@footprint_weaken W _ _ 0 0 3 6000); [lia|lia|apply footprint_ret].
      * apply (@footprint_bind W _ _ _ 3 6000 0 0);
          [lia|apply footprint_fetchWithRetry; reflexivity|intro; pure_steps].
    + intro e. exists ("Error logging activity to HubSpot:",
                       HubSpot.failed (HubSpot.error_text e)). reflexivity.
Qed.

End ClientFootprints.

(** ** The flat object sent as [properties] *)

Lemma prop_app k (a b : list (string * string)) :
  Crm.prop k (a ++ b) = match Crm.prop k a with
                        | Some v => Some v
                        | None => Crm.prop k b
                        end.
Proof.
  induction a as [|[k' v] a IH]; cbn; [reflexivity|].
  destruct (String.eqb k k'); [reflexivity|exact IH].
Qed.

Lemma prop_set_key k k' v acc :
  Crm.prop k (HubSpot.set_key k' v acc)
  = if String.eqb k k' then Some v else Crm.prop k acc.
Proof.
  induction acc as [|[k0 v0] acc IH]; cbn.
  - destruct (String.eqb k k'); reflexivity.
  - destruct (String.eqb k' k0) eqn:E0; cbn.
    + apply String.eqb_eq in E0. subst k0.
      destruct (String.eqb k k'); reflexivity.
    + destruct (String.eqb k k0) eqn:E1.
      * apply String.eqb_eq in E1. subst k0.
        rewrite String.eqb_sym, E0. reflexivity.
      * exact IH.
Qed.

Lemma keys_set_key k v acc :
  NoDup (map fst acc) ->
  NoDup (map fst (HubSpot.set_key k v acc))
  /\ (forall x, In x (map fst (HubSpot.set_key k v acc)) -> x = k \/ In x (map fst acc)).
Proof.
  induction acc as [|[k0 v0] acc IH]; cbn; intros Hnd.
  - split; [repeat constructor; auto|]. intros x [<-|[]]. now left.
  - inversion Hnd as [|? ? Hnotin Hnd']; subst.
    destruct (String.eqb k k0) eqn:E; cbn.
    + apply String.eqb_eq in E. subst k0. split; [constructor; assumption|].
      intros x [<-|Hx]; [now left|right; now right].
    + destruct (IH Hnd') as (IHnd & IHin). split.
      * constructor; [|exact IHnd]. intros Hin.
        destruct (IHin _ Hin) as [->|Hin']; [|contradiction].
        rewrite String.eqb_refl in E. discriminate.
      * intros x [<-|Hx]; [right; now left|].
        destruct (IHin _ Hx) as [->|Hx']; [now left|right; now right].
Qed.

Lemma fold_set_key ps : forall acc,
  NoDup (map fst acc) ->
  let out := fold_left (fun acc p => HubSpot.set_key (fst p) (snd p) acc) ps acc in
  NoDup (map fst out)
  /\ forall k, Crm.prop k out = match Crm.prop k (rev ps) with
                                | Some v => Some v
                                | None => Crm.prop k acc
                                end.
Proof.
  induction ps as [|[k0 v0] ps IH]; intros acc Hnd; cbn [fold_left rev].
  - split; [exact Hnd|reflexivity].
  - destruct (IH (HubSpot.set_key k0 v0 acc)) as (Hnd' & Hprop);
      [apply keys_set_key, Hnd|].
    split; [exact Hnd'|]. intros k. cbv zeta in Hprop. rewrite Hprop, prop_app.
    destruct (Crm.prop k (rev ps)); [reflexivity|].
    cbn [fst snd Crm.prop]. rewrite prop_set_key.
    destruct (String.eqb k k0); reflexivity.
Qed.

Lemma flat_object_bindings (properties : list (string * string)) :
  NoDup (map fst (HubSpot.flat_object properties))
  /\ forall k, Crm.prop k (HubSpot.flat_object properties) = Crm.prop k (rev properties).
Proof.
  unfold HubSpot.flat_object.
  destruct (@fold_set_key properties [] (NoDup_nil _)) as (Hnd & Hprop).
  split; [exact Hnd|]. intros k. cbv zeta in Hprop. rewrite Hprop.
  destruct (Crm.prop k (rev properties)); reflexivity.
Qed.

(** X12: the body built by [reduce] has one key per property name, and the
    value of a key is that of the last property of that name: a later
    property replaces an earlier one. *)
Theorem flat_object_last_wins (properties : list (string * string)) :
  NoDup (map fst (HubSpot.flat_object properties))
  /\ forall k, Crm.prop k (HubSpot.flat_object properties) = Crm.prop k (rev properties).
Proof.
  unfold HubSpot.flat_object.
  destruct (@fold_set_key properties [] (NoDup_nil _)) as (Hnd & Hprop).
  split; [exact Hnd|]. intros k. cbv zeta in Hprop. rewrite Hprop.
  destruct (Crm.prop k (rev properties)); reflexivity.
Qed.

(** X13: the [email] sent in a create or update body is the contact's, unless a
    custom field is itself named [email]: then the last such field is sent
    instead, while the lookup still searches for the contact's own. *)
Theorem body_email (contactData : HubSpot.HubSpotContact) :
  Crm.prop "email" (HubSpot.flat_object (HubSpot.contact_properties contactData))
  = Some match HubSpot.customFields contactData with
         | Some fields => match Crm.prop "email" (rev fields) with
                          | Some custom => custom
                          | None => HubSpot.email contactData
                          end
         | None => HubSpot.email contactData
         end.
Proof.
  destruct (flat_object_bindings (HubSpot.contact_properties contactData)) as (_ & ->).
  unfold HubSpot.contact_properties. rewrite rev_app_distr, prop_app.
  destruct (HubSpot.customFields contactData) as [fields|].
  - destruct (Crm.prop "email" (rev fields)); reflexivity.
  - reflexivity.
Qed.

(** ** The operations of the client *)

Lemma well_formed_succeeded : well_formed HubSpot.succeeded.
Proof. left. split; reflexivity. Qed.

Lemma well_formed_succeeded_deal (d : value) : well_formed (HubSpot.succeeded_deal d).
Proof. left. split; reflexivity. Qed.

Lemma well_formed_failed_str (s : string) : well_formed (HubSpot.failed (VStr s)).
Proof. apply well_formed_failed. reflexivity. Qed.

#[local] Hint Resolve well_formed_succeeded well_formed_succeeded_deal
  well_formed_failed_str : shapes.

Section Operations.
Context {W : Type}.
Variable fetch : Request -> W -> Settle Response * W.
Variable coerced_gt_zero : value -> bool.

Local Abbreviation fetchWithRetry := (HubSpot.fetchWithRetry fetch).
Local Abbreviation getContactByEmail := (HubSpot.getContactByEmail fetch coerced_gt_zero).
Local Abbreviation syncContactToHubSpot := (HubSpot.syncContactToHubSpot fetch coerced_gt_zero).
Local Abbreviation addContactToList := (HubSpot.addContactToList fetch).
Local Abbreviation createHubSpotDeal := (HubSpot.createHubSpotDeal fetch).
Local Abbreviation logActivityToHubSpot := (HubSpot.logActivityToHubSpot fetch coerced_gt_zero).

(** [results[0]] and [results.length] of a text count in UTF-16 units:
    one for a letter of the basic plane, two for a character beyond it,
    of which [results[0]] is the high surrogate (here U+D83D). *)
Lemma text_results_in_units :
  Js.get (VStr "étoile") "0" = Returned (VStr "é")
  /\ Js.get (VStr "étoile") "length" = Returned (VNum 6)
  /\ Js.get (VStr "€uro") "0" = Returned (VStr "€")
  /\ Js.get (VStr "😀x") "length" = Returned (VNum 3)
  /\ Js.get (VStr "😀x") "0"
     = Returned (VStr (String (ascii_of_nat 237)
                              (String (ascii_of_nat 160)
                                      (String (ascii_of_nat 189) EmptyString)))).
Proof. vm_compute. repeat split. Qed.

(** X14: the lookup never throws, and never makes a contact up: it returns
    [null], or else the first element of the [results] of a 2xx search
    response.  A search that fails in any way (rejected, timed out, retries
    used up, non-2xx, unreadable or [null] body, no [results]) gives
    [null]. *)
Theorem lookup_null_or_first_result email apiKey (st : State W) :
  exists found st',
    getContactByEmail email apiKey st = (Returned found, st')
    /\ (found = VNull
        \/ exists response data results,
            fst (fetchWithRetry (SearchContacts apiKey email) Retry.no_options st)
            = Returned response
            /\ ok response = true
            /\ json response = Returned data
            /\ Js.get data "results" = Returned results
            /\ Js.truthy results = true
            /\ Js.get results "0" = Returned found).
Proof.
  unfold HubSpot.getContactByEmail, try_catch, bind, lift, ret.
  destruct (HubSpot.fetchWithRetry fetch (SearchContacts apiKey email) Retry.no_options st)
    as [[response|e] st1]; [|do 2 eexists; split; [reflexivity|left; reflexivity]].
  destruct (ok response) eqn:Hok; cbn [negb];
    [|do 2 eexists; split; [reflexivity|left; reflexivity]].
  destruct (json response) as [data|e] eqn:Hjson;
    [|do 2 eexists; split; [reflexivity|left; reflexivity]].
  destruct (Js.get data "results") as [results|e] eqn:Hres;
    [|do 2 eexists; split; [reflexivity|left; reflexivity]].
  unfold Js.or_else. destruct (Js.truthy results) eqn:Htruthy.
  - destruct (Js.get results "length") as [len|e];
      [|do 2 eexists; split; [reflexivity|left; reflexivity]].
    destruct (HubSpot.gt_zero coerced_gt_zero len);
      [|do 2 eexists; split; [reflexivity|left; reflexivity]].
    destruct (Js.get results "0") as [found|e] eqn:Hfirst;
      [|do 2 eexists; split; [reflexivity|left; reflexivity]].
    exists found, st1. split; [reflexivity|]. right.
    exists response, data, results. cbn [fst]. auto 10.
  - cbn. do 2 eexists. split; [reflexivity|left; reflexivity].
Qed.

(** X15: add-to-list, create-deal and log-activity never throw either: each
    fulfils with a well-formed success or failure object, whatever the
    remote does. *)
Theorem auxiliary_never_throw env :
  (forall email listId, always_returns well_formed (addContactToList env email listId))
  /\ (forall data, always_returns well_formed (createHubSpotDeal env data))
  /\ (forall data, always_returns well_formed (logActivityToHubSpot env data)).
Proof.
  split; [|split]; intros; apply try_catch_always;
    try (intro e; apply handler_always; auto with shapes);
    returns_steps; auto with shapes.
Qed.

(** X16: without the credential they fail as the sync does, naming the missing
    variable, and touch neither the remote nor the network. *)
Theorem auxiliary_missing_credential env (st : State W) :
  credential_absent env ->
  let missing := HubSpot.failed (VStr "HUBSPOT_API_KEY environment variable is not set") in
  (forall email listId,
      exists st', addContactToList env email listId st = (Returned missing, st')
                  /\ world st' = world st
                  /\ network_calls (trace st') = network_calls (trace st))
  /\ (forall data,
         exists st', createHubSpotDeal env data st = (Returned missing, st')
                     /\ world st' = world st
                     /\ network_calls (trace st') = network_calls (trace st))
  /\ (forall data,
         exists st', logActivityToHubSpot env data st = (Returned missing, st')
                     /\ world st' = world st
                     /\ network_calls (trace st') = network_calls (trace st)).
Proof.
  intros Habsent missing.
  assert (Hkey : HubSpot.getHubSpotApiKey env
                 = Threw (ThrownError "HUBSPOT_API_KEY environment variable is not set"))
    by (destruct Habsent; subst env; reflexivity).
  split; [|split]; intros;
    [unfold HubSpot.addContactToList
    |unfold HubSpot.createHubSpotDeal
    |unfold HubSpot.logActivityToHubSpot];
    (erewrite try_catch_threw
       by (apply bind_threw; unfold lift; rewrite Hkey; reflexivity));
    eexists; (split; [reflexivity|]); split; trace_simpl; reflexivity.
Qed.

(** X17: log-activity posts no note for a contact the search does not give a
    truthy [vid] for: when the first search result has none, it reports
    'Contact not found in HubSpot' after the one search call. *)
Theorem activity_not_logged_without_vid
  env apiKey data (st : State W) r w' body first rest :
  HubSpot.getHubSpotApiKey env = Returned apiKey ->
  fetch (SearchContacts apiKey (HubSpot.activityEmail data)) (world st) = (Resolved r, w') ->
  ok r = true ->
  json r = Returned body ->
  Js.get body "results" = Returned (VArr (first :: rest)) ->
  Js.truthy (Js.get_opt first "vid") = false ->
  logActivityToHubSpot env data st
  = (Returned (HubSpot.failed (VStr "Contact not found in HubSpot")),
     mkState w' (trace st ++ [ Invoke 1;
                               Fetch (SearchContacts apiKey (HubSpot.activityEmail data)) ])).
Proof.
  intros Hkey Hf Hok Hjson Hres Hvid. unfold HubSpot.logActivityToHubSpot.
  erewrite try_catch_returned; [reflexivity|].
  erewrite bind_returned by (unfold lift; rewrite Hkey; reflexivity).
  erewrite bind_returned; cycle 1.
  { unfold HubSpot.getContactByEmail.
    erewrite try_catch_returned; [reflexivity|].
    erewrite bind_returned by (apply fetchWithRetry_resolved; exact Hf).
    rewrite Hok. cbn [negb]. unfold bind, lift. rewrite Hjson, Hres. reflexivity. }
  cbn [hd]. rewrite Hvid. reflexivity.
Qed.

End Operations.

Section Paths.
Context {W : Type}.
Variable fetch : Request -> W -> Settle Response * W.
Variable coerced_gt_zero : value -> bool.

Local Abbreviation fetchWithRetry := (HubSpot.fetchWithRetry fetch).
Local Abbreviation getContactByEmail := (HubSpot.getContactByEmail fetch coerced_gt_zero).
Local Abbreviation syncContactToHubSpot := (HubSpot.syncContactToHubSpot fetch coerced_gt_zero).


(** [results] that are missing, falsy or an empty array mean no contact. *)
Lemma lookup_nothing email apiKey (st : State W) r w' data results :
  fetch (SearchContacts apiKey email) (world st) = (Resolved r, w') ->
  ok r = true ->
  json r = Returned data ->
  Js.get data "results" = Returned results ->
  Js.truthy results = false \/ results = VArr [] ->
  getContactByEmail email apiKey st
  = (Returned VNull,
     mkState w' (trace st ++ [Invoke 1; Fetch (SearchContacts apiKey email)])).
Proof.
  intros Hf Hok Hjson Hres Hnone. unfold HubSpot.getContactByEmail.
  erewrite try_catch_returned; [reflexivity|].
  erewrite bind_returned by (apply fetchWithRetry_resolved; exact Hf).
  rewrite Hok. cbn [negb]. unfold bind, lift. rewrite Hjson, Hres.
  destruct Hnone as [Hfalsy| ->].
  - unfold Js.or_else. rewrite Hfalsy. reflexivity.
  - reflexivity.
Qed.


(** X19: the create path: when the search is answered 2xx with no result and
    the create is answered 2xx with a JSON object, the sync succeeds with
    the [id] of that object as [vid], after exactly a search and a
    create. *)
Theorem sync_creates_absent_contact
  env apiKey contactData (st : State W) r1 w1 data results r2 w2 body :
  HubSpot.getHubSpotApiKey env = Returned apiKey ->
  fetch (SearchContacts apiKey (HubSpot.email contactData)) (world st) = (Resolved r1, w1) ->
  ok r1 = true ->
  json r1 = Returned data ->
  Js.get data "results" = Returned results ->
  Js.truthy results = false \/ results = VArr [] ->
  fetch (PostContact apiKey
                     (HubSpot.flat_object (HubSpot.contact_properties contactData))) w1
  = (Resolved r2, w2) ->
  ok r2 = true ->
  json r2 = Returned (VObj body) ->
  syncContactToHubSpot env contactData st
  = (Returned (HubSpot.succeeded_vid (Js.lookup "id" body)),
     mkState w2
       (trace st
        ++ [ Invoke 1; Fetch (SearchContacts apiKey (HubSpot.email contactData));
             Invoke 1;
             Fetch (PostContact apiKey
                      (HubSpot.flat_object (HubSpot.contact_properties contactData))) ])).
Proof.
  intros Hkey Hf1 Hok1 Hjson Hres Hnone Hf2 Hok2 Hbody.
  unfold HubSpot.syncContactToHubSpot.
  erewrite try_catch_returned; [reflexivity|].
  erewrite bind_returned by (unfold lift; rewrite Hkey; reflexivity).
  cbv zeta.
  erewrite bind_returned by (eapply lookup_nothing; eassumption).
  cbn [Js.get_opt Js.get Js.truthy]. unfold HubSpot.createContact.
  erewrite try_catch_returned; [reflexivity|].
  erewrite bind_returned by (apply fetchWithRetry_resolved; exact Hf2).
  rewrite Hok2. cbn [negb]. unfold bind, lift, ret. rewrite Hbody.
  cbn [Js.get trace world]. rewrite <- app_assoc. reflexivity.
Qed.

(** A call whose every attempt is rejected with the same retryable error
    is sent three times, with waits of 2000ms and 4000ms, and throws that
    error. *)
Lemma fetchWithRetry_exhausted req message (st : State W) :
  (forall q w, exists w', fetch q w = (Rejected (ThrownError message), w')) ->
  Retry.isRetryableError message = true ->
  exists st',
    fetchWithRetry req Retry.no_options st = (Threw (ThrownError message), st')
    /\ network_calls (trace st') = (network_calls (trace st) ++ [req; req; req])%list
    /\ waits (trace st') = (waits (trace st) ++ [2000; 4000])%list.
Proof.
  intros Hall Hretry. unfold HubSpot.fetchWithRetry, Retry.retryWithBackoff.
  change (Z.to_nat (Retry.config_maxAttempts Retry.no_options)) with 3%nat.
  assert (Hstep : forall s : State W, exists w',
             (let (o, w) := fetch req (world s) in
              (o, mkState w (trace s ++ [Fetch req])))
             = (Rejected (ThrownError message), mkState w' (trace s ++ [Fetch req]))).
  { intros s. destruct (Hall req (world s)) as (w' & ->). exists w'. reflexivity. }
  match goal with
  | |- context [Retry.loop ?f _ _ _ 3 1 None st] => set (fn := f) in *
  end.
  destruct (Hstep (emit (Invoke 1) st)) as (w1 & H1).
  erewrite loop_retries with (e := ThrownError message);
    [ | exact H1 | reflexivity | discriminate | exact Hretry ].
  match goal with
  | |- context [Retry.loop _ _ _ _ 2 _ _ ?s] => destruct (Hstep (emit (Invoke (1 + 1)) s)) as (w2 & H2)
  end.
  erewrite loop_retries with (e := ThrownError message);
    [ | exact H2 | reflexivity | discriminate | exact Hretry ].
  match goal with
  | |- context [Retry.loop _ _ _ _ 1 _ _ ?s] =>
      destruct (Hstep (emit (Invoke (1 + 1 + 1)) s)) as (w3 & H3)
  end.
  erewrite loop_gives_up with (e := ThrownError message);
    [ | exact H3 | reflexivity | reflexivity ].
  eexists. split; [reflexivity|]. split; trace_simpl.
  - rewrite <- !app_assoc. reflexivity.
  - rewrite <- !app_assoc. reflexivity.
Qed.

(** X20: when the network is down (every call rejected with the same retryable
    error), the sync gives up after six sendings, three of the lookup and
    three of the create, with waits of 2000, 4000, 2000 and 4000ms, and
    reports that error as its failure. *)
Theorem sync_reports_network_failure env apiKey contactData message (st : State W) :
  HubSpot.getHubSpotApiKey env = Returned apiKey ->
  (forall q w, exists w', fetch q w = (Rejected (ThrownError message), w')) ->
  Retry.isRetryableError message = true ->
  let search := SearchContacts apiKey (HubSpot.email contactData) in
  let create := PostContact apiKey
                  (HubSpot.flat_object (HubSpot.contact_properties contactData)) in
  exists st',
    syncContactToHubSpot env contactData st
    = (Returned (HubSpot.failed (VStr message)), st')
    /\ network_calls (trace st')
       = (network_calls (trace st)
          ++ [search; search; search; create; create; create])%list
    /\ waits (trace st') = (waits (trace st) ++ [2000; 4000; 2000; 4000])%list.
Proof.
  intros Hkey Hall Hretry search create.
  destruct (fetchWithRetry_exhausted search st Hall Hretry) as (st1 & E1 & N1 & W1).
  set (st1' := emit (ConsoleError "Error fetching contact from HubSpot:"
                                  (ThrownError message)) st1).
  destruct (fetchWithRetry_exhausted create st1' Hall Hretry) as (st2 & E2 & N2 & W2).
  exists (emit (ConsoleError "Error creating contact in HubSpot:" (ThrownError message)) st2).
  split; [|split].
  - unfold HubSpot.syncContactToHubSpot.
    erewrite try_catch_returned; [reflexivity|].
    erewrite bind_returned by (unfold lift; rewrite Hkey; reflexivity).
    cbv zeta.
    erewrite bind_returned; cycle 1.
    { unfold HubSpot.getContactByEmail.
      erewrite try_catch_threw by (apply bind_threw; exact E1). reflexivity. }
    cbn [Js.get_opt Js.get Js.truthy]. unfold HubSpot.createContact.
    erewrite try_catch_threw by (apply bind_threw; exact E2). reflexivity.
  - trace_simpl. rewrite N2. subst st1'. trace_simpl. rewrite N1, <- app_assoc. reflexivity.
  - trace_simpl. rewrite W2. subst st1'. trace_simpl. rewrite W1, <- app_assoc. reflexivity.
Qed.

End Paths.

(* ================================================================= *)
(** * The integration test endpoint *)

Section EndpointFacts.
Context {W : Type}.
Variable fetch : Request -> W -> Settle Response * W.
Variable coerced_gt_zero : value -> bool.

Local Abbreviation syncContactToHubSpot := (HubSpot.syncContactToHubSpot fetch coerced_gt_zero).
Local Abbreviation GET := (TestEndpoint.GET fetch coerced_gt_zero).
Local Abbreviation POST := (TestEndpoint.POST fetch coerced_gt_zero).

Lemma sync_always_returns env contactData :
  always_returns well_formed (syncContactToHubSpot env contactData).
Proof.
  apply try_catch_always.
  - apply returns_only_bind; intro apiKey. cbv zeta.
    apply returns_only_bind; intro existing.
    destruct (Js.truthy (Js.get_opt existing "vid")).
    + apply always_returns_only, updateContact_always.
    + apply always_returns_only, createContact_always.
  - intro e. apply handler_always. auto with shapes.
Qed.

(** X21: the GET handler always answers, and with 200, 401 or 500 only. *)
Theorem GET_always_answers env clock (st : State W) :
  exists reply st',
    GET env clock st = (Returned reply, st')
    /\ (TestEndpoint.code reply = 200 \/ TestEndpoint.code reply = 401
        \/ TestEndpoint.code reply = 500).
Proof.
  revert st. apply try_catch_always.
  - destruct (TestEndpoint.key_missing env); cbv zeta; returns_steps; cbn; auto.
  - intro e. apply handler_always. cbn. auto.
Qed.

(** X22: without the credential the GET handler answers 401 at once: no
    contact is built, nothing is logged, no call is made. *)
Theorem GET_without_credential env clock (st : State W) :
  credential_absent env ->
  exists reply,
    GET env clock st = (Returned reply, st)
    /\ TestEndpoint.code reply = 401
    /\ Js.lookup "message" match TestEndpoint.payload reply with
                           | VObj fields => fields
                           | _ => []
                           end
       = VStr "HUBSPOT_API_KEY environment variable is not set".
Proof.
  intros Habsent.
  assert (Hmissing : TestEndpoint.key_missing env = true)
    by (destruct Habsent; subst env; reflexivity).
  unfold TestEndpoint.GET, try_catch. rewrite Hmissing.
  eexists. split; [reflexivity|]. split; reflexivity.
Qed.

(** The GET reply, from the result of the sync. *)
Lemma GET_by_result env clock (st st1 : State W) result :
  TestEndpoint.key_missing env = false ->
  syncContactToHubSpot env (test_contact clock) (announced clock st) = (Returned result, st1) ->
  exists reply st',
    GET env clock st = (Returned reply, st')
    /\ world st' = world st1
    /\ network_calls (trace st') = network_calls (trace st1)
    /\ (HubSpot.success result = true ->
        (forall text, JsText.to_string (HubSpot.vid result) = Returned text ->
                      TestEndpoint.code reply = 200
                      /\ Js.get_opt (Js.get_opt (TestEndpoint.payload reply) "testContact")
                                    "hubspotId"
                         = HubSpot.vid result)
        /\ (forall e, JsText.to_string (HubSpot.vid result) = Threw e ->
                      TestEndpoint.code reply = 500))
    /\ (HubSpot.success result = false ->
        (TestEndpoint.code reply = 401 \/ TestEndpoint.code reply = 500)
        /\ (forall text, HubSpot.error result = VStr text ->
                         TestEndpoint.code reply = failure_code text)
        /\ (forall e, JsText.to_string (HubSpot.error result) = Threw e ->
                      TestEndpoint.code reply = 500)).
Proof.
  intros Hkey Hsync. unfold TestEndpoint.GET, try_catch. rewrite Hkey. cbv zeta.
  unfold bind at 1. unfold TestEndpoint.console_log at 1.
  fold (test_email clock). fold (test_contact clock). fold (announced clock st).
  unfold bind at 1. rewrite Hsync.
  destruct (HubSpot.success result) eqn:Hs; cbn [negb].
  - unfold bind at 1, lift at 1.
    destruct (JsText.to_string (HubSpot.vid result)) as [text|e] eqn:Ht.
    + do 2 eexists. split; [reflexivity|].
      split; [reflexivity|]. split; [trace_simpl; reflexivity|].
      split; [intros _; split|discriminate].
      * intros t _. split; reflexivity.
      * intros e He. discriminate He.
    + do 2 eexists. split; [reflexivity|].
      split; [reflexivity|]. split; [trace_simpl; reflexivity|].
      split; [intros _; split|discriminate].
      * intros t Hx. discriminate Hx.
      * intros e' _. reflexivity.
  - unfold bind at 1, lift at 1.
    destruct (JsText.to_string (HubSpot.error result)) as [line|e] eqn:Ht.
    + destruct (HubSpot.error result) as [| |b|n|text|items|fields] eqn:He;
        cbn; try (destruct (existsb _ items); cbn; [|destruct (existsb _ items); cbn]);
        try (do 2 eexists; split; [reflexivity|];
             split; [reflexivity|]; split; [trace_simpl; reflexivity|];
             split; [discriminate|]; intros _;
             split; [auto|];
             split; [intros t Hx; discriminate Hx|intros e Hx; discriminate Hx]).
      destruct (JsString.includes "401" text) eqn:H401; cbn;
        [|destruct (JsString.includes "Unauthorized" text) eqn:Hword; cbn];
        (do 2 eexists; split; [reflexivity|];
         split; [reflexivity|]; split; [trace_simpl; reflexivity|];
         split; [discriminate|]; intros _;
         split; [auto|];
         split; [|intros e Hx; discriminate Hx];
         intros t Hx; injection Hx as <-; unfold failure_code;
         rewrite H401, ?Hword; reflexivity).
    + do 2 eexists. split; [reflexivity|].
      split; [reflexivity|]. split; [trace_simpl; reflexivity|].
      split; [discriminate|]. intros _.
      split; [right; reflexivity|].
      split; [|intros e' _; reflexivity].
      intros t Hx. rewrite Hx in Ht. discriminate Ht.
Qed.

(** X23: with the credential present the GET handler hands its test contact to
    the sync and reports its result.  When the sync succeeded the answer is
    200 with the [vid] as [hubspotId], provided the [vid] can be written
    into the log line; a [vid] whose conversion to text throws (an object
    with a [toString] entry of its own) sends the handler into its
    catch-all, which answers 500.  When the sync failed the answer is 401
    or 500, never 200: a failure is told to be an authentication failure
    (401) only by the words "401" or "Unauthorized" in its error text, any
    other text gives 500, and so does an error whose conversion to text
    throws.  The handler itself makes no network call. *)
Theorem GET_reports_the_sync env clock (st : State W) :
  TestEndpoint.key_missing env = false ->
  exists result st1 reply st',
    syncContactToHubSpot env (test_contact clock) (announced clock st) = (Returned result, st1)
    /\ GET env clock st = (Returned reply, st')
    /\ world st' = world st1
    /\ network_calls (trace st') = network_calls (trace st1)
    /\ (HubSpot.success result = true ->
        (forall text, JsText.to_string (HubSpot.vid result) = Returned text ->
                      TestEndpoint.code reply = 200
                      /\ Js.get_opt (Js.get_opt (TestEndpoint.payload reply) "testContact")
                                    "hubspotId"
                         = HubSpot.vid result)
        /\ (forall e, JsText.to_string (HubSpot.vid result) = Threw e ->
                      TestEndpoint.code reply = 500))
    /\ (HubSpot.success result = false ->
        (TestEndpoint.code reply = 401 \/ TestEndpoint.code reply = 500)
        /\ (forall text, HubSpot.error result = VStr text ->
                         TestEndpoint.code reply = failure_code text)
        /\ (forall e, JsText.to_string (HubSpot.error result) = Threw e ->
                      TestEndpoint.code reply = 500)).
Proof.
  intros Hkey.
  destruct (sync_always_returns env (test_contact clock) (announced clock st))
    as (result & st1 & Hsync & _).
  destruct (@GET_by_result env clock st st1 result Hkey Hsync) as (reply & st' & H).
  exists result, st1, reply, st'. split; [exact Hsync|exact H].
Qed.

(** When the remote answers every call with the same non-2xx response
    carrying a message, the sync fails with that message. *)
Lemma sync_all_refused env apiKey contactData (st : State W) r msg :
  HubSpot.getHubSpotApiKey env = Returned apiKey ->
  (forall req w, exists w', fetch req w = (Resolved r, w')) ->
  error_response r msg ->
  exists st1,
    syncContactToHubSpot env contactData st = (Returned (HubSpot.failed msg), st1).
Proof.
  intros Hkey Hall Herr.
  destruct (Hall (SearchContacts apiKey (HubSpot.email contactData)) (world st))
    as (w1 & Hf1).
  pose proof (@getContactByEmail_not_ok W fetch coerced_gt_zero _ _ st _ _ Hf1 (proj1 Herr))
    as Hlook.
  set (st1 := mkState w1 (trace st ++ [Invoke 1;
                                       Fetch (SearchContacts apiKey (HubSpot.email contactData))]))
    in Hlook.
  set (properties := HubSpot.contact_properties contactData).
  destruct (Hall (PostContact apiKey (HubSpot.flat_object properties)) (world st1))
    as (w2 & Hf2).
  pose proof (@createContact_refused W fetch properties apiKey st1 w2 msg
                (@error_response_refuses W fetch _ _ _ _ _ Herr Hf2)) as Hcreate.
  destruct (HubSpot.createContact fetch properties apiKey st1) as [res st2] eqn:Hc.
  cbn [fst] in Hcreate. subst res.
  exists st2. unfold HubSpot.syncContactToHubSpot.
  erewrite try_catch_returned; [reflexivity|].
  erewrite bind_returned by (unfold lift; rewrite Hkey; reflexivity).
  cbv zeta. erewrite bind_returned by exact Hlook.
  cbn [Js.get_opt Js.get Js.truthy]. exact Hc.
Qed.

(** X24: a credential the remote rejects is reported as 401 only if the
    remote's message says "401" or "Unauthorized": when every call is
    answered 401 with a message that has neither word, the GET handler
    answers 500. *)
Theorem GET_rejected_credential_may_be_500 env clock (st : State W) r text :
  TestEndpoint.key_missing env = false ->
  (forall req w, exists w', fetch req w = (Resolved r, w')) ->
  status r = 401 ->
  error_response r (VStr text) ->
  JsString.includes "401" text = false ->
  JsString.includes "Unauthorized" text = false ->
  exists reply st',
    GET env clock st = (Returned reply, st')
    /\ TestEndpoint.code reply = 500.
Proof.
  intros Hkey Hall _ Herr H401 Hword.
  assert (Hk : exists apiKey, HubSpot.getHubSpotApiKey env = Returned apiKey).
  { destruct env as [k|]; [|discriminate]. cbn in Hkey |- *. rewrite Hkey. eauto. }
  destruct Hk as (apiKey & Hk).
  destruct (@sync_all_refused env apiKey (test_contact clock) (announced clock st) r (VStr text)
              Hk Hall Herr)
    as (st1 & Hsync).
  destruct (@GET_by_result env clock st st1 _ Hkey Hsync)
    as (reply & st' & HG & _ & _ & _ & Hfail).
  exists reply, st'. split; [exact HG|].
  destruct (Hfail eq_refl) as (_ & Htext & _).
  rewrite (Htext text eq_refl). unfold failure_code. rewrite H401, Hword.
  reflexivity.
Qed.

Lemma is_auth_error_text (text : string) :
  TestEndpoint.is_auth_error (VStr text)
  = Returned (JsString.includes "401" text || JsString.includes "Unauthorized" text).
Proof.
  unfold TestEndpoint.is_auth_error. cbn.
  destruct (JsString.includes "401" text); reflexivity.
Qed.

(** X25: the POST handler answers every request it is defined on, with 200,
    400, 401 or 500. *)
Theorem POST_always_answers env clock body handler (st : State W) :
  POST env clock body = Some handler ->
  exists reply st',
    handler st = (Returned reply, st')
    /\ http_code reply.
Proof.
  unfold TestEndpoint.POST, http_code. intros H. revert st.
  destruct (TestEndpoint.key_missing env).
  { injection H as <-. apply try_catch_always;
      [returns_steps; cbn; auto|intro e; apply handler_always; cbn; auto]. }
  destruct body as [contactData|e].
  2:{ injection H as <-. apply try_catch_always;
        [returns_steps; cbn; auto|intro e'; apply handler_always; cbn; auto]. }
  destruct (Js.get contactData "email") as [email|e].
  2:{ injection H as <-. apply try_catch_always;
        [intros s a s' E; discriminate E|intro e'; apply handler_always; cbn; auto]. }
  destruct (negb (Js.truthy email)).
  { injection H as <-. apply try_catch_always;
      [returns_steps; cbn; auto|intro e'; apply handler_always; cbn; auto]. }
  destruct contactData as [| | | | | |fields]; try discriminate H.
  destruct (TestEndpoint.contact_of_json fields) as [contact|]; [|discriminate H].
  injection H as <-. apply try_catch_always;
    [returns_steps; cbn; auto|intro e'; apply handler_always; cbn; auto].
Qed.

(** X26: the POST handler turns a request away before any call is made: 401
    without the credential, whatever is posted; with it, 400 for a body
    that is not JSON and 400 for one with no (or a falsy) [email].  A body
    that is the JSON [null] is not told apart as a bad request: reading its
    [email] throws, and the answer is the catch-all 500. *)
Theorem POST_turns_away_before_any_call env clock (st : State W) :
  (TestEndpoint.key_missing env = true ->
   forall body, exists handler reply,
       POST env clock body = Some handler
       /\ handler st = (Returned reply, st)
       /\ TestEndpoint.code reply = 401)
  /\ (TestEndpoint.key_missing env = false ->
      (forall e, exists handler reply,
            POST env clock (Threw e) = Some handler
            /\ handler st = (Returned reply, st)
            /\ TestEndpoint.code reply = 400)
      /\ (forall contactData email,
             Js.get contactData "email" = Returned email ->
             Js.truthy email = false ->
             exists handler reply,
               POST env clock (Returned contactData) = Some handler
               /\ handler st = (Returned reply, st)
               /\ TestEndpoint.code reply = 400)
      /\ (exists handler reply st',
             POST env clock (Returned VNull) = Some handler
             /\ handler st = (Returned reply, st')
             /\ TestEndpoint.code reply = 500
             /\ world st' = world st
             /\ network_calls (trace st') = network_calls (trace st))).
Proof.
  split; [|split; [|split]].
  - intros Hkey body. unfold TestEndpoint.POST. rewrite Hkey.
    do 2 eexists. split; [reflexivity|]. split; reflexivity.
  - intros e. unfold TestEndpoint.POST. rewrite H.
    do 2 eexists. split; [reflexivity|]. split; reflexivity.
  - intros contactData email Hget Hfalsy. unfold TestEndpoint.POST.
    rewrite H, Hget, Hfalsy. cbn [negb].
    do 2 eexists. split; [reflexivity|]. split; reflexivity.
  - unfold TestEndpoint.POST. rewrite H. cbn [Js.get].
    do 3 eexists. split; [reflexivity|]. split; [reflexivity|].
    split; [reflexivity|]. split; trace_simpl; reflexivity.
Qed.

(** X27: a posted contact with string fields is handed to the sync as posted,
    and the reply follows the result as the GET reply does: 200 with the
    [vid] on success; on failure 401 or 500 by the words of the error
    text. *)
Theorem POST_reports_the_sync env clock fields contact (st : State W) :
  TestEndpoint.key_missing env = false ->
  Js.truthy (Js.lookup "email" fields) = true ->
  TestEndpoint.contact_of_json fields = Some contact ->
  let st0 := emit (ConsoleLog ("[HubSpot Test] Syncing contact: " ++ HubSpot.email contact)) st in
  exists handler result st1 reply st',
    POST env clock (Returned (VObj fields)) = Some handler
    /\ Js.lookup "email" fields = VStr (HubSpot.email contact)
    /\ syncContactToHubSpot env contact st0 = (Returned result, st1)
    /\ handler st = (Returned reply, st')
    /\ network_calls (trace st') = network_calls (trace st1)
    /\ (HubSpot.success result = true ->
        TestEndpoint.code reply = 200
        /\ Js.get_opt (Js.get_opt (TestEndpoint.payload reply) "contact") "hubspotId"
           = HubSpot.vid result)
    /\ (HubSpot.success result = false ->
        forall text, HubSpot.error result = VStr text ->
                     TestEndpoint.code reply = failure_code text).
Proof.
  intros Hkey Htruthy Hcontact st0.
  assert (Hemail : Js.lookup "email" fields = VStr (HubSpot.email contact)).
  { unfold TestEndpoint.contact_of_json in Hcontact.
    destruct (Js.lookup "email" fields); try discriminate Hcontact.
    destruct (TestEndpoint.optional_string (Js.lookup "firstName" fields));
      try discriminate Hcontact.
    destruct (TestEndpoint.optional_string (Js.lookup "lastName" fields));
      try discriminate Hcontact.
    destruct (TestEndpoint.optional_string (Js.lookup "company" fields));
      try discriminate Hcontact.
    destruct (TestEndpoint.optional_string (Js.lookup "lifecycleStage" fields));
      try discriminate Hcontact.
    destruct (TestEndpoint.optional_fields (Js.lookup "customFields" fields));
      try discriminate Hcontact.
    injection Hcontact as <-. reflexivity. }
  destruct (sync_always_returns env contact st0) as (result & st1 & Hsync & _).
  destruct (TestEndpoint.POST fetch coerced_gt_zero env clock (Returned (VObj fields)))
    as [handler|] eqn:HP;
    unfold TestEndpoint.POST in HP; rewrite Hkey in HP; cbn [Js.get] in HP;
    rewrite Htruthy in HP; cbn [negb] in HP; rewrite Hcontact in HP;
    [injection HP as HP|discriminate HP].
  assert (Hrun : exists reply st',
             handler st = (Returned reply, st')
             /\ network_calls (trace st') = network_calls (trace st1)
             /\ (HubSpot.success result = true ->
                 TestEndpoint.code reply = 200
                 /\ Js.get_opt (Js.get_opt (TestEndpoint.payload reply) "contact") "hubspotId"
                    = HubSpot.vid result)
             /\ (HubSpot.success result = false ->
                 forall text, HubSpot.error result = VStr text ->
                              TestEndpoint.code reply = failure_code text)).
  { subst handler.
    unfold try_catch. unfold bind at 1. unfold TestEndpoint.console_log at 1.
    cbv beta iota. unfold bind at 1.
    match goal with
    | |- context [HubSpot.syncContactToHubSpot fetch coerced_gt_zero env contact ?s] =>
        change s with st0
    end.
    rewrite Hsync.
    destruct (HubSpot.success result) eqn:Hs; cbn [negb].
    - do 2 eexists. split; [reflexivity|]. split; [reflexivity|].
      split; [intros _; split; reflexivity|discriminate].
    - unfold bind, lift.
      destruct (TestEndpoint.is_auth_error (HubSpot.error result)) as [[|]|e] eqn:Ha;
        (do 2 eexists; split; [reflexivity|];
         split; [try reflexivity; trace_simpl; reflexivity|];
         split; [discriminate|];
         intros _ text Ht; rewrite Ht, is_auth_error_text in Ha;
         try discriminate Ha;
         injection Ha as Ha; unfold failure_code; rewrite Ha; reflexivity). }
  destruct Hrun as (reply & st' & Hrun).
  exists handler, result, st1, reply, st'.
  split; [reflexivity|]. split; [exact Hemail|]. split; [exact Hsync|]. exact Hrun.
Qed.

End EndpointFacts.

(* ================================================================= *)
(** * Instances of the further properties *)

Lemma first_attempt_success_witness :
  Retry.retryWithBackoff (run_op Cases.fulfils) Retry.no_options (mkState 0%nat [])
  = (Returned 7, mkState 1%nat [Invoke 1]).
Proof.
  apply (@first_attempt_success nat Z Cases.fulfils Retry.no_options (mkState 0%nat []) 7 1%nat).
  - vm_compute. discriminate.
  - reflexivity.
Defined.

Lemma attempts_bounded_waits_scheduled_witness :
  exists k,
    (1 <= k <= 3)%nat
    /\ invocations (trace (snd (Retry.retryWithBackoff (run_op Cases.flaky) Retry.no_options
                                                       (mkState 0%nat []))))
       = (0 + k)%nat
    /\ waits (trace (snd (Retry.retryWithBackoff (run_op Cases.flaky) Retry.no_options
                                                 (mkState 0%nat []))))
       = ([] ++ schedule 2000 1 (k - 1))%list.
Proof.
  apply (@attempts_bounded_waits_scheduled nat Z Cases.flaky Retry.no_options
           (mkState 0%nat [])).
  vm_compute. discriminate.
Defined.


Lemma retryable_error_means_exhausted_witness :
  invocations (trace (snd (Retry.retryWithBackoff (run_op Scenario.always_refused)
                                                  Retry.no_options (mkState 0%nat []))))
  = (0 + 3)%nat.
Proof.
  apply (@retryable_error_means_exhausted nat Z Scenario.always_refused Retry.no_options
           (mkState 0%nat []) "ECONNREFUSED").
  - vm_compute. discriminate.
  - reflexivity.
  - reflexivity.
Defined.

Lemma never_settling_times_out_witness :
  exists st',
    Retry.retryWithBackoff (run_op Cases.never_settles)
                           (Retry.mkOptions (Some 3) (Some 100) (Some 10)) (mkState 0%nat [])
    = (Threw (ThrownError "Request timeout after 100ms"), st')
    /\ invocations (trace st') = 3%nat
    /\ waits (trace st') = [10; 20].
Proof.
  apply (@never_settling_times_out nat Z Cases.never_settles
           (Retry.mkOptions (Some 3) (Some 100) (Some 10)) (mkState 0%nat [])).
  - vm_compute. discriminate.
  - vm_compute. discriminate.
  - reflexivity.
Defined.

Lemma recovers_after_transient_failure_witness :
  exists tr,
    Retry.retryWithBackoff (run_op Cases.flaky) (Retry.mkOptions (Some 3) None (Some 10))
                           (mkState 0%nat [])
    = (Returned 7, mkState 2%nat tr)
    /\ invocations tr = 2%nat
    /\ waits tr = [10].
Proof.
  apply (@recovers_after_transient_failure nat Z Cases.flaky
           (Retry.mkOptions (Some 3) None (Some 10)) (mkState 0%nat [])
           (ThrownError "ECONNREFUSED") 1%nat 2%nat 7).
  - vm_compute. discriminate.
  - reflexivity.
  - reflexivity.
  - reflexivity.
Defined.

Lemma retryable_anywhere_witness :
  Retry.isRetryableError "HTTP 400: limit of 5000 records exceeded" = true.
Proof.
  apply (@retryable_anywhere "HTTP 400: limit of " "500" "0 records exceeded").
  reflexivity.
Defined.

Lemma auxiliary_missing_credential_witness :
  exists st',
    HubSpot.addContactToList Scripted.fetch None "john@example.com" "list-id-123"
                             (Scripted.start Scenario.empty_bodies)
    = (Returned (HubSpot.failed (VStr "HUBSPOT_API_KEY environment variable is not set")), st')
    /\ world st' = Scenario.empty_bodies
    /\ network_calls (trace st') = [].
Proof.
  apply (@auxiliary_missing_credential Scripted.Mock Scripted.fetch Scripted.no_coercion None
           (Scripted.start Scenario.empty_bodies)).
  left. reflexivity.
Defined.

Lemma activity_not_logged_without_vid_witness :
  HubSpot.logActivityToHubSpot Scripted.fetch Scripted.no_coercion (Some Scenario.key)
                               Cases.jane_activity (Scripted.start Scenario.existing_contact)
  = (Returned (HubSpot.failed (VStr "Contact not found in HubSpot")),
     mkState (Scripted.mkMock [Scripted.http 200 (VObj [])] (Scripted.http 200 (VObj [])))
             [ Invoke 1; Fetch (SearchContacts Scenario.key "jane@example.com") ]).
Proof.
  exact (@activity_not_logged_without_vid Scripted.Mock Scripted.fetch Scripted.no_coercion
           (Some Scenario.key) Scenario.key Cases.jane_activity
           (Scripted.start Scenario.existing_contact)
           (mkResponse 200
              (Returned (VObj [("results",
                                VArr [ VObj [ ("id", VNum 67890);
                                              ("properties",
                                               VObj [("email",
                                                      VObj [("value",
                                                             VStr "jane@example.com")])]) ] ])])))
           (Scripted.mkMock [Scripted.http 200 (VObj [])] (Scripted.http 200 (VObj [])))
           (VObj [("results",
                   VArr [ VObj [ ("id", VNum 67890);
                                 ("properties",
                                  VObj [("email",
                                         VObj [("value", VStr "jane@example.com")])]) ] ])])
           (VObj [ ("id", VNum 67890);
                   ("properties",
                    VObj [("email", VObj [("value", VStr "jane@example.com")])]) ])
           [] eq_refl eq_refl eq_refl eq_refl eq_refl eq_refl).
Defined.


Lemma sync_creates_absent_contact_witness :
  Scenario.sync Cases.not_found_then_created
  = (Returned (HubSpot.succeeded_vid (VNum 12345)),
     mkState (Scripted.mkMock [] (Scripted.http 201 (VObj [("id", VNum 12345)])))
             [ Invoke 1; Fetch (SearchContacts Scenario.key "jane@example.com");
               Invoke 1; Fetch (PostContact Scenario.key Scenario.jane_properties) ]).
Proof.
  exact (@sync_creates_absent_contact Scripted.Mock Scripted.fetch Scripted.no_coercion
           (Some Scenario.key) Scenario.key Scenario.jane
           (Scripted.start Cases.not_found_then_created)
           (mkResponse 200 (Returned (VObj [("results", VArr [])])))
           (Scripted.mkMock [] (Scripted.http 201 (VObj [("id", VNum 12345)])))
           (VObj [("results", VArr [])]) (VArr [])
           (mkResponse 201 (Returned (VObj [("id", VNum 12345)])))
           (Scripted.mkMock [] (Scripted.http 201 (VObj [("id", VNum 12345)])))
           [("id", VNum 12345)]
           eq_refl eq_refl eq_refl eq_refl eq_refl (or_intror eq_refl)
           eq_refl eq_refl eq_refl).
Defined.

Lemma sync_reports_network_failure_witness :
  exists st',
    HubSpot.syncContactToHubSpot Cases.network_down Scripted.no_coercion (Some Scenario.key)
                                 Scenario.jane (mkState tt [])
    = (Returned (HubSpot.failed (VStr "ECONNREFUSED")), st')
    /\ List.length (network_calls (trace st')) = 6%nat
    /\ waits (trace st') = [2000; 4000; 2000; 4000].
Proof.
  destruct (@sync_reports_network_failure unit Cases.network_down Scripted.no_coercion
              (Some Scenario.key) Scenario.key Scenario.jane "ECONNREFUSED" (mkState tt []))
    as (st' & E & N & Wt).
  - reflexivity.
  - intros q w. exists w. reflexivity.
  - reflexivity.
  - exists st'. split; [exact E|]. split; [rewrite N; reflexivity|exact Wt].
Defined.

Lemma GET_without_credential_witness :
  exists reply,
    TestEndpoint.GET Scripted.fetch Scripted.no_coercion None Cases.noon
                     (Scripted.start Scenario.empty_bodies)
    = (Returned reply, Scripted.start Scenario.empty_bodies)
    /\ TestEndpoint.code reply = 401.
Proof.
  destruct (@GET_without_credential Scripted.Mock Scripted.fetch Scripted.no_coercion None
              Cases.noon (Scripted.start Scenario.empty_bodies))
    as (reply & E & Hc & _).
  - left. reflexivity.
  - exists reply. split; assumption.
Defined.

Lemma GET_reports_the_sync_witness :
  (exists reply st',
      TestEndpoint.GET Scripted.fetch Scripted.no_coercion (Some Scenario.key) Cases.noon
                       (Scripted.start Cases.not_found_then_created)
      = (Returned reply, st')
      /\ TestEndpoint.code reply = 200
      /\ Js.get_opt (Js.get_opt (TestEndpoint.payload reply) "testContact") "hubspotId"
         = VNum 12345)
  /\ (exists reply st',
         TestEndpoint.GET Scripted.fetch Scripted.no_coercion (Some Scenario.key) Cases.noon
                          (Scripted.start Cases.created_with_unwritable_id)
         = (Returned reply, st')
         /\ TestEndpoint.code reply = 500).
Proof.
  split.
  - destruct (@GET_reports_the_sync Scripted.Mock Scripted.fetch Scripted.no_coercion
                (Some Scenario.key) Cases.noon (Scripted.start Cases.not_found_then_created))
      as (result & st1 & reply & st' & Hsync & HG & _ & _ & Hok & _).
    + reflexivity.
    + exists reply, st'. split; [exact HG|].
      vm_compute in Hsync. injection Hsync as <- _.
      destruct (Hok eq_refl) as (Hwritten & _).
      exact (Hwritten "12345" eq_refl).
  - destruct (@GET_reports_the_sync Scripted.Mock Scripted.fetch Scripted.no_coercion
                (Some Scenario.key) Cases.noon
                (Scripted.start Cases.created_with_unwritable_id))
      as (result & st1 & reply & st' & Hsync & HG & _ & _ & Hok & _).
    + reflexivity.
    + exists reply, st'. split; [exact HG|].
      vm_compute in Hsync. injection Hsync as <- _.
      destruct (Hok eq_refl) as (_ & Hthrows).
      exact (Hthrows _ eq_refl).
Defined.

Lemma GET_rejected_credential_may_be_500_witness :
  exists reply st',
    TestEndpoint.GET Cases.rejects_credential Scripted.no_coercion (Some Scenario.key)
                     Cases.noon (mkState tt [])
    = (Returned reply, st')
    /\ TestEndpoint.code reply = 500.
Proof.
  apply (@GET_rejected_credential_may_be_500 unit Cases.rejects_credential
           Scripted.no_coercion (Some Scenario.key) Cases.noon (mkState tt [])
           Cases.unauthorized_response "Authentication credentials not found.").
  - reflexivity.
  - intros req w. exists w. reflexivity.
  - reflexivity.
  - split; [reflexivity|]. eexists. repeat split.
  - reflexivity.
  - reflexivity.
Defined.

Lemma POST_always_answers_witness :
  exists handler reply st',
    TestEndpoint.POST Scripted.fetch Scripted.no_coercion (Some Scenario.key) Cases.noon
                      (Returned (VObj Cases.posted)) = Some handler
    /\ handler (Scripted.start Cases.not_found_then_created) = (Returned reply, st')
    /\ http_code reply.
Proof.
  eexists.
  destruct (@POST_always_answers Scripted.Mock Scripted.fetch Scripted.no_coercion
              (Some Scenario.key) Cases.noon (Returned (VObj Cases.posted)) _
              (Scripted.start Cases.not_found_then_created) eq_refl)
    as (reply & st' & E & Hc).
  exists reply, st'. split; [reflexivity|]. split; assumption.
Defined.

Lemma POST_turns_away_before_any_call_witness :
  exists handler reply,
    TestEndpoint.POST Scripted.fetch Scripted.no_coercion (Some Scenario.key) Cases.noon
                      (Returned (VObj [("firstName", VStr "John")])) = Some handler
    /\ handler (Scripted.start Scenario.empty_bodies)
       = (Returned reply, Scripted.start Scenario.empty_bodies)
    /\ TestEndpoint.code reply = 400.
Proof.
  destruct (@POST_turns_away_before_any_call Scripted.Mock Scripted.fetch
              Scripted.no_coercion (Some Scenario.key) Cases.noon
              (Scripted.start Scenario.empty_bodies))
    as (_ & Hpresent).
  destruct (Hpresent eq_refl) as (_ & Hemail & _).
  exact (Hemail (VObj [("firstName", VStr "John")]) VUndefined eq_refl eq_refl).
Defined.

Lemma POST_reports_the_sync_witness :
  exists handler result st1 reply st',
    TestEndpoint.POST Scripted.fetch Scripted.no_coercion (Some Scenario.key) Cases.noon
                      (Returned (VObj Cases.posted)) = Some handler
    /\ HubSpot.syncContactToHubSpot Scripted.fetch Scripted.no_coercion (Some Scenario.key)
         Cases.posted_contact
         (emit (ConsoleLog "[HubSpot Test] Syncing contact: custom@example.com")
               (Scripted.start Cases.not_found_then_created))
       = (Returned result, st1)
    /\ handler (Scripted.start Cases.not_found_then_created) = (Returned reply, st')
    /\ (HubSpot.success result = true -> TestEndpoint.code reply = 200).
Proof.
  destruct (@POST_reports_the_sync Scripted.Mock Scripted.fetch Scripted.no_coercion
              (Some Scenario.key) Cases.noon Cases.posted Cases.posted_contact
              (Scripted.start Cases.not_found_then_created) eq_refl eq_refl eq_refl)
    as (handler & result & st1 & reply & st' & HP & _ & Hsync & Hrun & _ & Hok & _).
  exists handler, result, st1, reply, st'.
  split; [exact HP|]. split; [exact Hsync|]. split; [exact Hrun|].
  intros Hs. exact (proj1 (Hok Hs)).
Defined.
